(** * Quick Rewriter: a shallow embedding of [quick_rewriter.py]

    The development follows the layout of the script: the [str] methods the
    script relies on, the values [json.load] produces, the two JSON files,
    the prompt resolver [_combine_prompt], the API client
    [call_openrouter_api], the prompt picker of [PromptWindow] and its
    one-shot paste.

    Conventions.
    - A Python [str] is a [string]; its characters are the 256 code points
      of [ascii] (Latin-1), ordered by code point.
    - A raised exception is a value of [py_exc]; code that touches the files
      or the network runs in the monad [M] over the [world]. *)

From Stdlib Require Import String Ascii List Bool Arith ZArith NArith Lia PrimFloat.
From Stdlib Require Import Permutation Sorted.
Import ListNotations.

Local Open Scope string_scope.
Local Open Scope bool_scope.

(* ================================================================== *)
(** * Part I: definitions *)
(* ================================================================== *)

(** ** Python [str] *)

(** What [str.format] does with a replacement field that is more than the
    bare name: a function of the field name, the conversion, the raw
    format specification and the value, [None] when it raises. *)
Definition extended_formatter : Type :=
  string -> option ascii -> string -> string -> option string.

Module Str.

(** The line feed, written [\n] in the script. *)
Definition LF : ascii := "010"%char.

(** [c.isspace()] on the first 256 code points: 9-13, 28-32, 133, 160. *)
Definition isspace (c : ascii) : bool :=
  let n := N_of_ascii c in
  ((9 <=? n) && (n <=? 13) || (28 <=? n) && (n <=? 32)
   || (n =? 133) || (n =? 160))%N.

(** [s.lstrip()] *)
Fixpoint lstrip (s : string) : string :=
  match s with
  | EmptyString => EmptyString
  | String c s' => if isspace c then lstrip s' else s
  end.

(** [s.rstrip()] *)
Fixpoint rstrip (s : string) : string :=
  match s with
  | EmptyString => EmptyString
  | String c s' =>
      match rstrip s' with
      | EmptyString => if isspace c then EmptyString else String c EmptyString
      | r => String c r
      end
  end.

(** [s.strip()]: whitespace is dropped at both ends. *)
Definition strip (s : string) : string := rstrip (lstrip s).

(** [sub in s] *)
Fixpoint contains (sub s : string) : bool :=
  prefix sub s ||
  match s with
  | EmptyString => false
  | String _ s' => contains sub s'
  end.

(** [c.lower()] on the first 256 code points: A-Z and the accented
    capitals 192-222 (the multiplication sign 215 apart) move up by 32. *)
Definition lower_char (c : ascii) : ascii :=
  let n := N_of_ascii c in
  if ((65 <=? n) && (n <=? 90)
      || (192 <=? n) && (n <=? 222) && negb (n =? 215))%N
  then ascii_of_N (n + 32) else c.

(** [s.lower()] *)
Fixpoint lower (s : string) : string :=
  match s with
  | EmptyString => EmptyString
  | String c s' => String (lower_char c) (lower s')
  end.

(** [s + c] for one character. *)
Definition snoc (s : string) (c : ascii) : string := s ++ String c EmptyString.

(** *** [template.format(text=value)]

    The scanner is the markup iterator of CPython's [str.format], one
    function per loop of the C code; every function consumes the rest of
    the format string and answers the text still to be produced, or [None]
    when [format] raises (ValueError, KeyError, IndexError, ...).

    A replacement field whose argument name is not [text] raises: there is
    no positional argument and [text] is the only keyword.  The plain field
    [{text}] (no attribute or index, no conversion, empty format
    specification) yields the value itself.  Every other field on [text]
    (say [{text!r}], [{text:>9}], [{text.upper}], [{text[0]}]) depends on
    Python's object model and is left to [format_extended], which takes
    the field name, the conversion, the raw format specification and the
    value, and may raise as well. *)
Section Format.

Variable format_extended : extended_formatter.

(** The part of a field name before the first [.] or [[]. *)
Fixpoint arg_name (field_name : string) : string :=
  match field_name with
  | EmptyString => EmptyString
  | String c rest =>
      if ((c =? ".") || (c =? "["))%char then EmptyString
      else String c (arg_name rest)
  end.

Definition render_field (field_name : string) (conversion : option ascii)
           (format_spec value : string) : option string :=
  if arg_name field_name =? "text" then
    match conversion with
    | None =>
        if (field_name =? "text") && (format_spec =? EmptyString) then Some value
        else format_extended field_name conversion format_spec value
    | Some _ => format_extended field_name conversion format_spec value
    end
  else None.

(** The text of a finished field, followed by what the rest produces. *)
Definition emit_field (field_name : string) (conversion : option ascii)
           (format_spec value : string) (rest : option string)
  : option string :=
  match render_field field_name conversion format_spec value, rest with
  | Some r, Some out => Some (r ++ out)
  | _, _ => None
  end.

Definition emit_char (c : ascii) (rest : option string) : option string :=
  option_map (String c) rest.

Fixpoint format (value s : string) {struct s} : option string :=
  match s with
  | EmptyString => Some EmptyString
  | String c s1 =>
      if (c =? "{")%char then
        match s1 with
        | EmptyString => None (* Single '{' encountered *)
        | String c' s2 =>
            if (c' =? "{")%char then emit_char "{" (format value s2)
            else in_field_name value EmptyString false s1
        end
      else if (c =? "}")%char then
        match s1 with
        | EmptyString => None (* Single '}' encountered *)
        | String c' s2 =>
            if (c' =? "}")%char then emit_char "}" (format value s2)
            else None
        end
      else emit_char c (format value s1)
  end

(** Inside [{...]: the field name runs to [}], [:] or [!]; between [[]
    and []] every character belongs to the name. *)
with in_field_name (value name : string) (in_brackets : bool) (s : string)
       {struct s} : option string :=
  match s with
  | EmptyString => None (* expected '}' before end of string *)
  | String c s1 =>
      if in_brackets then
        in_field_name value (snoc name c) (negb (c =? "]")%char) s1
      else if (c =? "{")%char then None (* unexpected '{' in field name *)
      else if (c =? "[")%char then in_field_name value (snoc name c) true s1
      else if (c =? "}")%char then
        emit_field name None EmptyString value (format value s1)
      else if (c =? ":")%char then
        in_format_spec value name None EmptyString 0 s1
      else if (c =? "!")%char then in_conversion value name s1
      else in_field_name value (snoc name c) false s1
  end

(** After [!]: one conversion character, then [}] or [:]. *)
with in_conversion (value name : string) (s : string) {struct s}
     : option string :=
  match s with
  | EmptyString => None (* end of string while looking for conversion *)
  | String conv s1 =>
      match s1 with
      | EmptyString => None (* unmatched '{' in format spec *)
      | String c s2 =>
          if (c =? "}")%char then
            emit_field name (Some conv) EmptyString value (format value s2)
          else if (c =? ":")%char then
            in_format_spec value name (Some conv) EmptyString 0 s2
          else None (* expected ':' after conversion specifier *)
      end
  end

(** After [:]: the format specification runs to the [}] that closes the
    field; [depth] counts the braces opened inside it. *)
with in_format_spec (value name : string) (conversion : option ascii)
       (spec : string) (depth : nat) (s : string) {struct s}
     : option string :=
  match s with
  | EmptyString => None (* unmatched '{' in format spec *)
  | String c s1 =>
      if (c =? "{")%char then
        in_format_spec value name conversion (snoc spec c) (S depth) s1
      else if (c =? "}")%char then
        match depth with
        | O => emit_field name conversion spec value (format value s1)
        | S d => in_format_spec value name conversion (snoc spec c) d s1
        end
      else in_format_spec value name conversion (snoc spec c) depth s1
  end.

End Format.

End Str.

(** ** The prompt resolver *)

(** Two line feeds: a blank line. *)
Definition blank_line : string := String Str.LF (String Str.LF EmptyString).

Definition marker : string := "{text}".

Definition strict_suffix : string :=
  blank_line ++
  "IMPORTANT: Output ONLY the rewritten text. Do not add any explanations, preambles, notes, or surrounding text. Just the result.".

Section Resolver.

Variable format_extended : extended_formatter.

(** [_combine_prompt(captured_text, instruction_or_template)]; on a [str]
    the [or] of its first line changes nothing. *)
Definition _combine_prompt (captured_text instruction_or_template : string)
  : string :=
  let template := instruction_or_template in
  if Str.contains marker template then
    match Str.format format_extended captured_text template with
    | Some formatted => formatted ++ strict_suffix
    | None => (template ++ blank_line ++ captured_text) ++ strict_suffix
    end
  else
    Str.strip (Str.strip template ++ blank_line ++ captured_text)
    ++ strict_suffix.

End Resolver.

(** ** Values read from JSON *)

(** What [json.load] and [response.json()] hand to the script. A [dict] is
    kept as its items in insertion order. *)
#[warnings="-register-all"] Inductive pyval : Type :=
| PNone
| PBool (b : bool)
| PInt (z : Z)
| PFloat (f : PrimFloat.float)
| PStr (s : string)
| PList (items : list pyval)
| PDict (items : list (string * pyval)).

Inductive runtime_error : Type :=
| ApiKeyMissing   (* "OpenRouter API key missing. Set it in Settings." *)
| NoChoices       (* "No choices returned from OpenRouter." *)
| EmptyContent.   (* "Empty response content from OpenRouter." *)

Inductive py_exc : Type :=
| RuntimeError (e : runtime_error)
| AttributeError
| KeyError
| IndexError
| TypeError
| JSONDecodeError
| ConnectionError
| HTTPError (status : Z).

Definition result (A : Type) : Type := (py_exc + A)%type.

(** [bool(v)] *)
Definition truthy (v : pyval) : bool :=
  match v with
  | PNone => false
  | PBool b => b
  | PInt z => negb (z =? 0)%Z
  | PFloat f => negb (PrimFloat.eqb f PrimFloat.zero)
  | PStr s => negb (s =? EmptyString)
  | PList items => match items with [] => false | _ :: _ => true end
  | PDict items => match items with [] => false | _ :: _ => true end
  end.

Fixpoint lookup {A : Type} (key : string) (items : list (string * A))
  : option A :=
  match items with
  | [] => None
  | (k, v) :: rest => if k =? key then Some v else lookup key rest
  end.

(** [v.get(key, default)]: only a [dict] has [get]. *)
Definition get (v : pyval) (key : string) (default : pyval) : result pyval :=
  match v with
  | PDict items =>
      match lookup key items with
      | Some x => inr x
      | None => inr default
      end
  | _ => inl AttributeError
  end.

(** [v.strip()]: only a [str] has [strip]. *)
Definition strip_method (v : pyval) : result string :=
  match v with
  | PStr s => inr (Str.strip s)
  | _ => inl AttributeError
  end.

(** [v[0]] *)
Definition getitem0 (v : pyval) : result pyval :=
  match v with
  | PList items =>
      match items with
      | x :: _ => inr x
      | [] => inl IndexError
      end
  | PStr s =>
      match s with
      | String c _ => inr (PStr (String c EmptyString))
      | EmptyString => inl IndexError
      end
  | PDict items =>
      (* the keys are strings, none equals the integer 0 *)
      inl KeyError
  | _ => inl TypeError
  end.

(** [isinstance(v, list)] *)
Definition is_list (v : pyval) : bool :=
  match v with
  | PList _ => true
  | _ => false
  end.

(** ** The world of the script: two files and the network *)

(** A file is known by what [open] and [json.load] make of it: it does not
    exist, reading it raises (it cannot be opened or decoded, or it is not
    JSON), or it holds a JSON document.  [json.dump] followed by [json.load]
    gives the document back. *)
Inductive file : Type :=
| Missing
| Unreadable
| Holds (v : pyval).

Inductive path : Type := CONFIG_PATH | PROMPTS_PATH.

(** The one request [call_openrouter_api] sends. *)
Record request : Type := {
  url : string;
  authorization : string;
  model : string;
  user_content : string
}.

(** The outcome of [requests.post]: no response at all (connection error,
    timeout), or a status with the body as [response.json()] reads it. *)
Inductive http_reply : Type :=
| NoReply
| Reply (status : Z) (json : option pyval).

Record world : Type := {
  config_json : file;
  prompts_json : file;
  sent : list request;             (* the requests issued so far *)
  remote : request -> http_reply   (* the endpoint *)
}.

Definition read_file (p : path) (w : world) : file :=
  match p with
  | CONFIG_PATH => config_json w
  | PROMPTS_PATH => prompts_json w
  end.

Definition write_file (p : path) (f : file) (w : world) : world :=
  match p with
  | CONFIG_PATH =>
      {| config_json := f; prompts_json := prompts_json w;
         sent := sent w; remote := remote w |}
  | PROMPTS_PATH =>
      {| config_json := config_json w; prompts_json := f;
         sent := sent w; remote := remote w |}
  end.

(** State and exceptions. *)
Definition M (A : Type) : Type := world -> world * result A.

Definition ret {A : Type} (a : A) : M A := fun w => (w, inr a).

Definition raise {A : Type} (e : py_exc) : M A := fun w => (w, inl e).

Definition bind {A B : Type} (m : M A) (k : A -> M B) : M B :=
  fun w =>
    match m w with
    | (w', inr a) => k a w'
    | (w', inl e) => (w', inl e)
    end.

Definition lift {A : Type} (r : result A) : M A := fun w => (w, r).

(** [try: body / except Exception: handler] *)
Definition try_except {A : Type} (body handler : M A) : M A :=
  fun w =>
    match body w with
    | (w', inl _) => handler w'
    | done => done
    end.

Declare Scope py_scope.
Delimit Scope py_scope with py.
Notation "x <- m ;; k" := (bind m (fun x => k))
  (at level 61, m at next level, right associativity) : py_scope.
Notation "m ;; k" := (bind m (fun _ => k))
  (at level 61, right associativity) : py_scope.
Local Open Scope py_scope.

(** [os.path.exists(p)] *)
Definition path_exists (p : path) : M bool :=
  fun w => (w, inr match read_file p w with Missing => false | _ => true end).

(** [with open(p, "r") as f: json.load(f)] *)
Definition json_load (p : path) : M pyval :=
  fun w =>
    match read_file p w with
    | Holds v => (w, inr v)
    | _ => (w, inl JSONDecodeError)
    end.

(** [with open(p, "w") as f: json.dump(data, f)] *)
Definition json_dump (p : path) (data : pyval) : M unit :=
  fun w => (write_file p (Holds data) w, inr tt).

(** ** The settings store *)

Definition placeholder : string := "YOUR_OPENROUTER_API_KEY_HERE".

Definition default_config : pyval := PDict [("api_key", PStr placeholder)].

Definition save_config (data : pyval) : M unit := json_dump CONFIG_PATH data.

Definition load_config : M pyval :=
  present <- path_exists CONFIG_PATH ;;
  if negb present then
    let default := default_config in
    save_config default ;;
    ret default
  else
    try_except
      (json_load CONFIG_PATH)
      (let default := default_config in
       save_config default ;;
       ret default).

(** ** The template store *)

Record prompt : Type := { name : string; prompt_text : string }.

(** The [dict] of one stored template. *)
Definition prompt_value (p : prompt) : pyval :=
  PDict [("name", PStr (name p)); ("prompt", PStr (prompt_text p))].

Definition professional_tone : prompt :=
  {| name := "Professional Tone";
     prompt_text :=
       "Rewrite the following text in a clear, formal, and professional business tone. "
       ++ "Output ONLY the rewritten text with no preamble, explanation, or notes:"
       ++ blank_line ++ "{text}" |}.

Definition fix_grammar : prompt :=
  {| name := "Fix Grammar";
     prompt_text :=
       "Correct any spelling and grammar mistakes in the following text. "
       ++ "Output ONLY the corrected text with no explanations or notes:"
       ++ blank_line ++ "{text}" |}.

Definition _default_prompts : list prompt := [professional_tone; fix_grammar].

Definition prompts_value (l : list prompt) : pyval := PList (map prompt_value l).

Definition save_prompts (data : pyval) : M unit := json_dump PROMPTS_PATH data.

Definition load_prompts : M pyval :=
  present <- path_exists PROMPTS_PATH ;;
  if negb present then
    let defaults := prompts_value _default_prompts in
    save_prompts defaults ;;
    ret defaults
  else
    try_except
      (data <- json_load PROMPTS_PATH ;;
       if is_list data then ret data
       else ret (prompts_value _default_prompts))
      (let defaults := prompts_value _default_prompts in
       save_prompts defaults ;;
       ret defaults).

(** ** The API client *)

Definition endpoint : string := "https://openrouter.ai/api/v1/chat/completions".

Definition model_id : string := "google/gemini-2.5-flash-preview-09-2025".

(** [requests.post(...)]: the request goes out and is answered. *)
Definition requests_post (r : request) : M http_reply :=
  fun w =>
    let w' := {| config_json := config_json w; prompts_json := prompts_json w;
                 sent := sent w ++ [r]; remote := remote w |} in
    match remote w r with
    | NoReply => (w', inl ConnectionError)
    | reply => (w', inr reply)
    end.

(** [response.raise_for_status()] *)
Definition raise_for_status (response : http_reply) : result unit :=
  match response with
  | Reply status _ =>
      if ((400 <=? status) && (status <? 600))%Z then inl (HTTPError status)
      else inr tt
  | NoReply => inl ConnectionError
  end.

(** [response.json()] *)
Definition response_json (response : http_reply) : result pyval :=
  match response with
  | Reply _ (Some data) => inr data
  | _ => inl JSONDecodeError
  end.

(** The last lines of [call_openrouter_api], from [data = response.json()]
    on: the content of the first choice. *)
Definition first_choice_content (data : pyval) : result pyval :=
  match get data "choices" (PList []) with
  | inl e => inl e
  | inr choices =>
      if negb (truthy choices) then inl (RuntimeError NoChoices)
      else
        match getitem0 choices with
        | inl e => inl e
        | inr choice =>
            match get choice "message" (PDict []) with
            | inl e => inl e
            | inr message =>
                match get message "content" (PStr EmptyString) with
                | inl e => inl e
                | inr content =>
                    if negb (truthy content)
                    then inl (RuntimeError EmptyContent)
                    else inr content
                end
            end
        end
  end.

(** The headers and the JSON of the request. *)
Definition build_request (api_key final_prompt : string) : request :=
  {| url := endpoint;
     authorization := "Bearer " ++ api_key;
     model := model_id;
     user_content := final_prompt |}.

Section Client.

Variable format_extended : extended_formatter.

Definition call_openrouter_api (captured_text instruction_or_template : string)
  : M pyval :=
  cfg <- load_config ;;
  key <- lift (get cfg "api_key" (PStr EmptyString)) ;;
  api_key <- lift (strip_method key) ;;
  if (api_key =? EmptyString) || (api_key =? placeholder) then
    raise (RuntimeError ApiKeyMissing)
  else
    let final_prompt :=
      _combine_prompt format_extended captured_text instruction_or_template in
    response <- requests_post (build_request api_key final_prompt) ;;
    lift (raise_for_status response) ;;
    data <- lift (response_json response) ;;
    lift (first_choice_content data).

End Client.

(** ** The prompt editor *)

(** The [prompt_val] that [save_and_close] stores for the text typed in
    the template box: the trimmed text, with a blank line and the marker
    appended when the marker is missing. *)
Definition save_and_close_prompt_val (typed : string) : string :=
  let prompt_val := Str.strip typed in
  if negb (Str.contains marker prompt_val) then
    Str.strip (Str.rstrip prompt_val ++ blank_line ++ marker)
  else prompt_val.

(** ** The prompt picker *)

(** The picker is modelled on stored lists whose entries carry a string
    [name] and a string [prompt], as the editor writes them. *)

(** [d[key] = value] on a [dict]: a key already present keeps its place. *)
Fixpoint dict_set (key value : string) (d : list (string * string))
  : list (string * string) :=
  match d with
  | [] => [(key, value)]
  | (k, v) :: rest =>
      if k =? key then (k, value) :: rest
      else (k, v) :: dict_set key value rest
  end.

(** [{p["name"]: p["prompt"] for p in prompts}] *)
Definition name_to_prompt_of (prompts : list prompt) : list (string * string) :=
  fold_left (fun d p => dict_set (name p) (prompt_text p) d) prompts [].

(** [list(d.keys())] *)
Definition keys (d : list (string * string)) : list string := map fst d.

(** [sorted(names, key=lambda s: s.lower())]: the stable sort, by insertion
    of each name before the first one whose key is not smaller. *)
Fixpoint insert_by_lower (x : string) (sorted : list string) : list string :=
  match sorted with
  | [] => [x]
  | y :: rest =>
      if String.leb (Str.lower x) (Str.lower y) then x :: sorted
      else y :: insert_by_lower x rest
  end.

Definition sorted_by_lower (names : list string) : list string :=
  fold_right insert_by_lower [] names.

(** The order of the sort: by lower-cased name, code point by code point. *)
Definition lower_le (a b : string) : Prop :=
  String.leb (Str.lower a) (Str.lower b) = true.

(** The fields of [PromptWindow] that the picker and the paste use;
    [entry] is the text of the entry widget. *)
Record PromptWindow : Type := {
  captured_text : string;
  prompt_select_mode : bool;
  name_to_prompt : list (string * string);
  sorted_prompt_names : list string;
  selected_prompt_index : Z;
  entry : string;
  _paste_executed : bool
}.

(** [PromptWindow.__init__] *)
Definition PromptWindow_init (captured : string) (prompts : list prompt)
  : PromptWindow :=
  let d := name_to_prompt_of prompts in
  {| captured_text := captured;
     prompt_select_mode := false;
     name_to_prompt := d;
     sorted_prompt_names := sorted_by_lower (keys d);
     selected_prompt_index := 0;
     entry := EmptyString;
     _paste_executed := false |}.

Definition with_selection (mode : bool) (index : Z) (pw : PromptWindow)
  : PromptWindow :=
  {| captured_text := captured_text pw;
     prompt_select_mode := mode;
     name_to_prompt := name_to_prompt pw;
     sorted_prompt_names := sorted_prompt_names pw;
     selected_prompt_index := index;
     entry := entry pw;
     _paste_executed := _paste_executed pw |}.

(** [_enter_prompt_select]: the list opens with its first row selected. *)
Definition _enter_prompt_select (pw : PromptWindow) : PromptWindow :=
  with_selection true 0 pw.

(** [_select_prompt(index)] *)
Definition _select_prompt (index : Z) (pw : PromptWindow) : PromptWindow :=
  with_selection (prompt_select_mode pw) index pw.

(** One button per sorted name. *)
Definition prompt_buttons (pw : PromptWindow) : list string :=
  sorted_prompt_names pw.

(** [_navigate_up] and [_navigate_down] *)
Definition _navigate (step : Z) (pw : PromptWindow) : PromptWindow :=
  match prompt_buttons pw with
  | [] => pw
  | _ :: _ =>
      if prompt_select_mode pw then
        _select_prompt
          ((selected_prompt_index pw + step)
             mod Z.of_nat (length (prompt_buttons pw)))%Z pw
      else pw
  end.

Definition _navigate_up : PromptWindow -> PromptWindow := _navigate (-1).
Definition _navigate_down : PromptWindow -> PromptWindow := _navigate 1.

(** The name on the button [_highlight_prompt] colours: the one at the
    selected index of the sorted list. *)
Definition highlighted_name (pw : PromptWindow) : option string :=
  let i := selected_prompt_index pw in
  if (0 <=? i)%Z then nth_error (prompt_buttons pw) (Z.to_nat i) else None.

(** The name [_submit] looks up: the one at the selected index of the keys
    of [name_to_prompt]. *)
Definition selected_name (pw : PromptWindow) : option string :=
  let prompt_names := keys (name_to_prompt pw) in
  let i := selected_prompt_index pw in
  if ((0 <=? i) && (i <? Z.of_nat (length prompt_names)))%Z
  then nth_error prompt_names (Z.to_nat i)
  else None.

(** [_submit]: the instruction handed to the worker, [None] when the
    method returns without starting one. *)
Definition _submit (pw : PromptWindow) : option string :=
  let chosen :=
    if prompt_select_mode pw then
      match selected_name pw with
      | Some selected =>
          Some match lookup selected (name_to_prompt pw) with
               | Some template => template
               | None => EmptyString
               end
      | None => None
      end
    else Some (Str.strip (entry pw)) in
  match chosen with
  | Some instruction =>
      if instruction =? EmptyString then None else Some instruction
  | None => None
  end.

(** ** The one-shot paste *)

Inductive key : Type := Ctrl | Char (c : ascii).

Inductive key_event : Type := Press (k : key) | Release (k : key).

Section Keyboard.

(** Whether the controller delivers an event; when it does not, the call
    raises. *)
Variable delivered : key_event -> bool.

Definition send (e : key_event) (log : list key_event)
  : option (list key_event) :=
  if delivered e then Some (log ++ [e])%list else None.

(** The [try] block of [_auto_paste]:
    [with controller.pressed(Key.ctrl): press('v'); release('v')], every
    exception swallowed.  [pressed] presses the key, runs the body and
    releases the key even when the body raises. *)
Definition paste_keystrokes (log : list key_event) : list key_event :=
  match send (Press Ctrl) log with
  | None => log
  | Some held =>
      let after_body :=
        match send (Press (Char "v")) held with
        | None => held
        | Some down =>
            match send (Release (Char "v")) down with
            | None => down
            | Some up => up
            end
        end in
      match send (Release Ctrl) after_body with
      | None => after_body
      | Some done => done
      end
  end.

(** [_auto_paste], on the window and the events sent so far. *)
Definition _auto_paste (st : PromptWindow * list key_event)
  : PromptWindow * list key_event :=
  let (pw, log) := st in
  if _paste_executed pw then st
  else
    ({| captured_text := captured_text pw;
        prompt_select_mode := prompt_select_mode pw;
        name_to_prompt := name_to_prompt pw;
        sorted_prompt_names := sorted_prompt_names pw;
        selected_prompt_index := selected_prompt_index pw;
        entry := entry pw;
        _paste_executed := true |},
     paste_keystrokes log).

End Keyboard.

(** The events of one paste: Ctrl down, v down, v up, Ctrl up. *)
Definition paste_chord : list key_event :=
  [Press Ctrl; Press (Char "v"); Release (Char "v"); Release Ctrl].

(** ** Notions the statements use *)

(** [part] occurs in [whole]. *)
Definition occurs (part whole : string) : Prop :=
  exists before after, whole = before ++ part ++ after.

Definition is_brace (c : ascii) : bool := ((c =? "{") || (c =? "}"))%char.

Fixpoint brace_free (s : string) : bool :=
  match s with
  | EmptyString => true
  | String c s' => negb (is_brace c) && brace_free s'
  end.

Fixpoint all_space (s : string) : bool :=
  match s with
  | EmptyString => true
  | String c s' => Str.isspace c && all_space s'
  end.

(** The first character exists and is not whitespace. *)
Definition starts_nonspace (s : string) : bool :=
  match s with
  | EmptyString => false
  | String c _ => negb (Str.isspace c)
  end.

(** Templates written with characters, doubled braces and markers only. *)
Inductive piece : Type :=
| Chr (c : ascii)     (* a character other than a brace *)
| Open                (* a doubled opening brace *)
| Close               (* a doubled closing brace *)
| Field.              (* the marker *)

Definition well_formed_piece (p : piece) : bool :=
  match p with
  | Chr c => negb (is_brace c)
  | _ => true
  end.

Definition is_field (p : piece) : bool :=
  match p with
  | Field => true
  | _ => false
  end.

(** The template as typed. *)
Fixpoint source (ps : list piece) : string :=
  match ps with
  | [] => EmptyString
  | Chr c :: rest => String c (source rest)
  | Open :: rest => "{{" ++ source rest
  | Close :: rest => "}}" ++ source rest
  | Field :: rest => marker ++ source rest
  end.

(** The template with [value] in place of each marker and one brace for
    each doubled one. *)
Fixpoint expansion (value : string) (ps : list piece) : string :=
  match ps with
  | [] => EmptyString
  | Chr c :: rest => String c (expansion value rest)
  | Open :: rest => "{" ++ expansion value rest
  | Close :: rest => "}" ++ expansion value rest
  | Field :: rest => value ++ expansion value rest
  end.

(** What stands in the output [out] at the place of the marker of the
    template [before ++ marker ++ after]: the characters between the text
    before the marker and the text after it, the directive left out. *)
Definition inserted_segment (before after out : string) : string :=
  substring (String.length before)
            (String.length out - String.length before - String.length after
             - String.length strict_suffix)
            out.

Section Statements.

Variable format_extended : extended_formatter.

(** The resolver's algorithm read to the letter: with the marker in the
    instruction, either the captured text stands where the marker stood or
    the output is the fallback; the directive ends the output. *)
Definition substitutes_at_marker (captured instruction : string) : Prop :=
  let out := _combine_prompt format_extended captured instruction in
  (Str.contains marker instruction = true ->
   (exists before after,
       instruction = before ++ marker ++ after
       /\ out = before ++ captured ++ after ++ strict_suffix)
   \/ out = instruction ++ blank_line ++ captured ++ strict_suffix)
  /\ exists body, out = body ++ strict_suffix.

(** Without the marker: trimmed instruction, then the captured text, a
    blank line between them, the directive at the end. *)
Definition instruction_then_text (captured instruction : string) : Prop :=
  let out := _combine_prompt format_extended captured instruction in
  Str.contains marker instruction = false ->
  (exists before between after,
      out = before ++ Str.strip instruction ++ between ++ captured ++ after
      /\ occurs blank_line between)
  /\ exists body, out = body ++ strict_suffix.

(** The captured text is part of the payload. *)
Definition text_kept (captured template : string) : Prop :=
  occurs captured (_combine_prompt format_extended captured template).

(** Resolving, then reading the segment at the marker, gives the captured
    text back. *)
Definition round_trip (before after captured : string) : Prop :=
  inserted_segment before after
    (_combine_prompt format_extended captured (before ++ marker ++ after))
  = captured.

End Statements.

(** ** Reading a response *)

(** The [choices] entry of a response body, when the body has one. *)
Definition choices_of (data : pyval) : option pyval :=
  match data with
  | PDict items => lookup "choices" items
  | _ => None
  end.

(** The message content of the first candidate of a response body. *)
Definition first_candidate_content (data : pyval) : option pyval :=
  match choices_of data with
  | Some (PList (PDict choice :: _)) =>
      match lookup "message" choice with
      | Some (PDict message) => lookup "content" message
      | _ => None
      end
  | _ => None
  end.

(** A credential the client accepts. *)
Definition usable_key (api_key : string) : bool :=
  negb ((api_key =? EmptyString) || (api_key =? placeholder)).

(** The settings file gives no usable credential: there is no file or it
    cannot be read (the default record takes its place), the record has
    no [api_key], or the key is blank or the placeholder once trimmed. *)
Definition credential_missing (w : world) : Prop :=
  config_json w = Missing
  \/ config_json w = Unreadable
  \/ exists items,
      config_json w = Holds (PDict items)
      /\ (lookup "api_key" items = None
          \/ exists k,
              lookup "api_key" items = Some (PStr k)
              /\ (Str.strip k = EmptyString \/ Str.strip k = placeholder)).

(** Sample data for the examples. *)
Definition offline : request -> http_reply := fun _ => NoReply.

Definition raising : extended_formatter := fun _ _ _ _ => None.

(** A world with a credential in the settings file and an endpoint that
    always gives the same reply. *)
Definition answering (reply : http_reply) : world :=
  {| config_json := Holds (PDict [("api_key", PStr " sk-or-demo ")]);
     prompts_json := Missing;
     sent := [];
     remote := fun _ => reply |}.

Definition hello_body : pyval :=
  PDict [("choices",
          PList [PDict [("message", PDict [("content", PStr "Hello")])]])].

(** ** The reading of a response, as specified *)

(** The error of a response with nothing in it: no choices, or no content. *)
Definition empty_response (outcome : result pyval) : Prop :=
  outcome = inl (RuntimeError NoChoices)
  \/ outcome = inl (RuntimeError EmptyContent).

(** The specification's words on a body [data] and the outcome of the
    call: choices absent or an empty list, an empty-response error; the
    empty string as message content of the first candidate, an
    empty-response error; any other content, that content returned.  A
    first candidate that carries no content is left open. *)
Definition handled_as_specified (data : pyval) (outcome : result pyval)
  : Prop :=
  match choices_of data with
  | None => empty_response outcome
  | Some (PList []) => empty_response outcome
  | Some _ =>
      match first_candidate_content data with
      | Some (PStr EmptyString) => empty_response outcome
      | Some content => outcome = inr content
      | None => True
      end
  end.

(** A body whose first candidate has [null] as content, as a completion
    without text has. *)
Definition null_content_body : pyval :=
  PDict [("choices",
          PList [PDict [("message", PDict [("content", PNone)])]])].

(** ** The two orders of the picker, as specified *)

(** The template stored under the highlighted name. *)
Definition highlighted_template (pw : PromptWindow) : option string :=
  match highlighted_name pw with
  | Some shown => lookup shown (name_to_prompt pw)
  | None => None
  end.

(** [_submit] dispatches the template of the highlighted name: what it
    hands to the worker is that template, nothing when the template is
    empty (an empty instruction is never sent). *)
Definition dispatches_highlighted (pw : PromptWindow) : Prop :=
  match highlighted_template pw with
  | Some template =>
      _submit pw = if template =? EmptyString then None else Some template
  | None => False
  end.

(** Different names carry different templates. *)
Definition distinct_templates (d : list (string * string)) : Prop :=
  forall n1 n2 template,
    lookup n1 d = Some template -> lookup n2 d = Some template -> n1 = n2.

(** The specification's conclusion on a stored list: the template
    dispatched is the highlighted one, row by row, only when the names in
    insertion order are the names in the order of the display. *)
Definition agree_only_when_sorted (captured : string) (prompts : list prompt)
  : Prop :=
  let pw := PromptWindow_init captured prompts in
  (forall i : Z,
      (0 <= i < Z.of_nat (length (keys (name_to_prompt pw))))%Z ->
      dispatches_highlighted (_select_prompt i (_enter_prompt_select pw))) ->
  keys (name_to_prompt pw) = sorted_prompt_names pw.

(** Sample data: one template stored under two names, and two names whose
    order depends on the case of their first letter. *)
Definition same_text_prompts : list prompt :=
  [ {| name := "Polish"; prompt_text := "Improve this text: {text}" |};
    {| name := "Fix"; prompt_text := "Improve this text: {text}" |} ].

Definition mixed_case_prompts : list prompt :=
  [ {| name := "fix typos"; prompt_text := "Fix the typos: {text}" |};
    {| name := "Formal tone"; prompt_text := "Make this formal: {text}" |} ].

(** ** The settings window *)

(** [d[key] = value] on a [dict] with values of any kind. *)
Fixpoint setitem {A : Type} (key : string) (value : A) (d : list (string * A))
  : list (string * A) :=
  match d with
  | [] => [(key, value)]
  | (k, v) :: rest =>
      if k =? key then (k, value) :: rest
      else (k, v) :: setitem key value rest
  end.

(** [del l[n]] for an index in range. *)
Fixpoint remove_at {A : Type} (n : nat) (l : list A) : list A :=
  match l, n with
  | [], _ => []
  | _ :: rest, O => rest
  | x :: rest, S n' => x :: remove_at n' rest
  end.

Fixpoint replace_at {A : Type} (n : nat) (x : A) (l : list A) : list A :=
  match l, n with
  | [], _ => []
  | _ :: rest, O => x :: rest
  | y :: rest, S n' => y :: replace_at n' x rest
  end.

(** [l[i] = x]: an index from [-len(l)] to [len(l) - 1], the negative ones
    counted from the end; any other raises IndexError. *)
Definition list_setitem {A : Type} (i : Z) (x : A) (l : list A)
  : result (list A) :=
  let n := Z.of_nat (length l) in
  if ((0 <=? i) && (i <? n))%Z then inr (replace_at (Z.to_nat i) x l)
  else if ((- n <=? i) && (i <? 0))%Z
       then inr (replace_at (Z.to_nat (i + n)) x l)
       else inl IndexError.

(** The data of [ManagementWindow]: the settings record and the list of
    templates, as loaded. *)
Record ManagementWindow : Type := {
  config_data : pyval;
  prompts : list pyval
}.

(** [_save_api_key], [typed] being the text of the key entry: item
    assignment needs a [dict]. *)
Definition _save_api_key (typed : string) (mw : ManagementWindow)
  : M ManagementWindow :=
  match config_data mw with
  | PDict items =>
      let cfg := PDict (setitem "api_key" (PStr (Str.strip typed)) items) in
      save_config cfg ;;
      ret {| config_data := cfg; prompts := prompts mw |}
  | _ => raise TypeError
  end.

(** [_delete_prompt(index)] *)
Definition _delete_prompt (index : Z) (mw : ManagementWindow)
  : M ManagementWindow :=
  if ((0 <=? index) && (index <? Z.of_nat (length (prompts mw))))%Z then
    let l := remove_at (Z.to_nat index) (prompts mw) in
    save_prompts (PList l) ;;
    ret {| config_data := config_data mw; prompts := l |}
  else ret mw.

(** [save_and_close] of the editor opened by [_open_prompt_editor(index)],
    on the texts of the name entry and of the template box. *)
Definition save_and_close (index : option Z) (name_typed prompt_typed : string)
           (mw : ManagementWindow) : M ManagementWindow :=
  let name_val := Str.strip name_typed in
  let name_val :=
    if name_val =? EmptyString then "Untitled Prompt" else name_val in
  let prompt_val := save_and_close_prompt_val prompt_typed in
  let stored := prompt_value {| name := name_val; prompt_text := prompt_val |} in
  l <- match index with
       | None => ret (prompts mw ++ [stored])%list
       | Some i => lift (list_setitem i stored (prompts mw))
       end ;;
  save_prompts (PList l) ;;
  ret {| config_data := config_data mw; prompts := l |}.

(** The preview line of a card in [_refresh_prompt_list]: the first 60
    characters and three dots for a longer template. *)
Definition preview (prompt_str : string) : string :=
  if (60 <? String.length prompt_str)%nat
  then substring 0 60 prompt_str ++ "..."
  else prompt_str.

(** ** More of the prompt picker *)

(** [c.isalpha()] on the first 256 code points. *)
Definition isalpha (c : ascii) : bool :=
  let n := N_of_ascii c in
  ((65 <=? n) && (n <=? 90) || (97 <=? n) && (n <=? 122)
   || (n =? 170) || (n =? 181) || (n =? 186)
   || (192 <=? n) && (n <=? 214) || (216 <=? n) && (n <=? 246)
   || (248 <=? n))%N.




(** The first place of [l] whose element satisfies [f]. *)
Fixpoint find_index {A : Type} (f : A -> bool) (l : list A) : option nat :=
  match l with
  | [] => None
  | x :: rest =>
      if f x then Some O else option_map S (find_index f rest)
  end.

(** [_jump_to_alpha(event)]; [keysym] is [None] when there is no event or
    the event has no [keysym]. *)
Definition _jump_to_alpha (keysym : option string) (pw : PromptWindow)
  : PromptWindow :=
  match keysym with
  | None => pw
  | Some sym =>
      if negb (prompt_select_mode pw) then pw
      else
        match Str.lower sym with
        | String c EmptyString =>
            if isalpha c then
              match find_index
                      (fun n => prefix (String c EmptyString) (Str.lower n))
                      (sorted_prompt_names pw) with
              | Some idx => _select_prompt (Z.of_nat idx) pw
              | None => pw
              end
            else pw
        | _ => pw
        end
  end.

(** The template stored last under [n]. *)
Fixpoint last_template (n : string) (ps : list prompt) : option string :=
  match ps with
  | [] => None
  | p :: rest =>
      match last_template n rest with
      | Some t => Some t
      | None => if name p =? n then Some (prompt_text p) else None
      end
  end.

(** ** The worker of [_submit] *)

(** What the worker thread of [_submit] does, the window being alive and
    the clipboard at hand: the call, the result or the error text put on
    the clipboard, the paste, and the call it hands to the event loop. *)

Inductive failure : Type :=
| Raised (e : py_exc)            (* [call_openrouter_api] raised *)
| NotCopied (v : pyval).         (* [pyperclip.copy(result)] raised *)

(** The call handed to [self.after(0, ...)].  On success it is the bound
    method [self._finish_success].  On failure it is the closure
    [lambda: self._finish_error(str(e))]: it holds no message, it reads the
    variable [e] of the worker when the event loop runs it; [e] is what
    that variable then holds, [None] when it is unbound. *)
Inductive scheduled : Type :=
| FinishSuccess
| FinishError (e : option failure).


Record desk : Type := {
  the_world : world;
  clipboard : string;
  key_log : list key_event;
  window : PromptWindow
}.

Section Worker.

Variable format_extended : extended_formatter.
Variable delivered : key_event -> bool.

(** What [pyperclip.copy] puts on the clipboard for a value that is not a
    [str], [None] when it raises. *)
Variable copy_other : pyval -> option string.

(** [str(e)] *)
Variable message : failure -> string.

Definition copied_text (v : pyval) : option string :=
  match v with
  | PStr s => Some s
  | _ => copy_other v
  end.

(** The clause [except Exception as e], [f] being the exception: the
    error text goes to the clipboard, the closure over [e] is handed to
    the event loop, and the end of the clause unbinds [e].  The event loop
    of the main thread runs the closure once the worker has gone on, so
    the closure finds [e] as the clause leaves it: unbound. *)
Definition worker_failed (f : failure) (w : world) (d : desk)
  : desk * scheduled :=
  let msg := "Error: " ++ message f in
  let d' := {| the_world := w;
               clipboard := msg;
               key_log := key_log d;
               window := window d |} in
  let e_after_clause := @None failure in
  (d', FinishError e_after_clause).


Definition worker (instruction : string) (d : desk) : desk * scheduled :=
  match call_openrouter_api format_extended
          (captured_text (window d)) instruction (the_world d) with
  | (w, inr result) =>
      match copied_text result with
      | Some text =>
          let (pw, log) := _auto_paste delivered (window d, key_log d) in
          ({| the_world := w; clipboard := text;
              key_log := log; window := pw |},
           FinishSuccess)
      | None => worker_failed (NotCopied result) w d
      end
  | (w, inl e) => worker_failed (Raised e) w d
  end.

End Worker.

(** ** Notions for the further statements *)

(** The record [load_config] returns: the document of the settings file,
    the default record when there is none or it cannot be read. *)
Definition loaded_config (w : world) : pyval :=
  match config_json w with
  | Holds v => v
  | _ => default_config
  end.

(** The world [load_config] leaves. *)
Definition after_load_config (w : world) : world :=
  match config_json w with
  | Holds _ => w
  | _ => write_file CONFIG_PATH (Holds default_config) w
  end.

(** The credential the client works with: the trimmed [api_key] of the
    loaded record, the empty string when the record has none; [None] when
    the record is no [dict] or the key no [str]. *)
Definition stored_key (w : world) : option string :=
  match get (loaded_config w) "api_key" (PStr EmptyString) with
  | inr (PStr k) => Some (Str.strip k)
  | _ => None
  end.

(** What the client makes of a reply. *)
Definition reply_outcome (reply : http_reply) : result pyval :=
  match reply with
  | NoReply => inl ConnectionError
  | Reply status body =>
      if ((400 <=? status) && (status <? 600))%Z then inl (HTTPError status)
      else
        match body with
        | Some data => first_choice_content data
        | None => inl JSONDecodeError
        end
  end.

(** The world once the request [r] has gone out. *)
Definition with_request (r : request) (w : world) : world :=
  {| config_json := config_json w; prompts_json := prompts_json w;
     sent := sent w ++ [r]; remote := remote w |}.

(** A field name written with plain characters: no brace, bracket, colon,
    exclamation mark or dot. *)
Definition plain_name_char (c : ascii) : bool :=
  negb ((c =? "{") || (c =? "}") || (c =? "[") || (c =? "]")
        || (c =? ":") || (c =? "!") || (c =? "."))%char.

Fixpoint plain_name (s : string) : bool :=
  match s with
  | EmptyString => true
  | String c s' => plain_name_char c && plain_name s'
  end.

(** No character of [s] is whitespace. *)
Fixpoint no_space (s : string) : bool :=
  match s with
  | EmptyString => true
  | String c s' => negb (Str.isspace c) && no_space s'
  end.

(** The name [save_and_close] stores for the text of the name entry. *)
Definition stored_name (name_typed : string) : string :=
  if Str.strip name_typed =? EmptyString then "Untitled Prompt"
  else Str.strip name_typed.

(** The entry [save_and_close] stores. *)
Definition stored_entry (name_typed prompt_typed : string) : pyval :=
  prompt_value {| name := stored_name name_typed;
                  prompt_text := save_and_close_prompt_val prompt_typed |}.

(** Sample data: a settings window on two templates and a record with a
    second entry. *)
Definition sample_window : ManagementWindow :=
  {| config_data := PDict [("theme", PStr "dark"); ("api_key", PStr placeholder)];
     prompts := map prompt_value _default_prompts |}.

Definition sample_world : world :=
  {| config_json := Holds (config_data sample_window);
     prompts_json := Holds (PList (prompts sample_window));
     sent := [];
     remote := fun _ => Reply 200 (Some hello_body) |}.

(** The lower-cased name starts with the character [k]. *)
Definition starts_with_key (k : ascii) (n : string) : bool :=
  prefix (String k EmptyString) (Str.lower n).

(** Sample data: a desk with nothing on the clipboard and no key sent,
    and samples for the two parameters of the worker. *)
Definition fresh_desk (w : world) (pw : PromptWindow) : desk :=
  {| the_world := w; clipboard := EmptyString; key_log := []; window := pw |}.

Definition never_copied : pyval -> option string := fun _ => None.

Definition no_message : failure -> string := fun _ => "failed".

(** The first lines of [App.__init__] that touch the files:
    [load_config()] then [load_prompts()], the results dropped. *)
Definition App_preload : M unit :=
  load_config ;;
  load_prompts ;;
  ret tt.

(** The file can be read. *)
Definition readable (f : file) : Prop := exists v, f = Holds v.

(* ================================================================== *)
(** * Part II: theorems *)
(* ================================================================== *)

(** ** Strings *)

Lemma append_empty_r (s : string) : s ++ EmptyString = s.
Proof.
  induction s as [| c s IH]; simpl; [reflexivity | now rewrite IH].
Qed.

Lemma append_assoc (a b c : string) : (a ++ b) ++ c = a ++ b ++ c.
Proof.
  induction a as [| x a IH]; simpl; [reflexivity | now rewrite IH].
Qed.

Lemma length_append (a b : string) :
  String.length (a ++ b) = String.length a + String.length b.
Proof.
  induction a as [| x a IH]; simpl; [reflexivity | now rewrite IH].
Qed.

Lemma prefix_append (t rest : string) : prefix t (t ++ rest) = true.
Proof.
  induction t as [| c t IH]; simpl.
  - now destruct rest.
  - destruct (ascii_dec c c) as [_ | N]; [exact IH | now elim N].
Qed.

Lemma contains_unfold (sub s : string) :
  Str.contains sub s =
  prefix sub s ||
  match s with
  | EmptyString => false
  | String _ s' => Str.contains sub s'
  end.
Proof.
  now destruct s.
Qed.

Lemma occurs_contains (part whole : string) :
  occurs part whole -> Str.contains part whole = true.
Proof.
  intros (before & after & ->).
  induction before as [| c before IH].
  - simpl (EmptyString ++ _). rewrite contains_unfold, prefix_append.
    reflexivity.
  - simpl. rewrite IH. apply orb_true_r.
Qed.

Lemma occurs_refl (s : string) : occurs s s.
Proof.
  exists EmptyString, EmptyString. now rewrite append_empty_r.
Qed.

Lemma occurs_append_l (part whole pre : string) :
  occurs part whole -> occurs part (pre ++ whole).
Proof.
  intros (b & a & ->). exists (pre ++ b), a. now rewrite append_assoc.
Qed.

Lemma occurs_append_r (part whole post : string) :
  occurs part whole -> occurs part (whole ++ post).
Proof.
  intros (b & a & ->). exists b, (a ++ post). now rewrite !append_assoc.
Qed.

Lemma substring_skip (a s : string) (n : nat) :
  substring (String.length a) n (a ++ s) = substring 0 n s.
Proof.
  induction a as [| c a IH]; simpl; [reflexivity | exact IH].
Qed.

Lemma substring_take (t rest : string) :
  substring 0 (String.length t) (t ++ rest) = t.
Proof.
  induction t as [| c t IH]; simpl.
  - now destruct rest.
  - now rewrite IH.
Qed.

(** ** Trimming *)

Lemma rstrip_all_space (ws : string) :
  all_space ws = true -> Str.rstrip ws = EmptyString.
Proof.
  induction ws as [| c ws IH]; simpl; [reflexivity |].
  intros H. apply andb_true_iff in H as [Hc Hws].
  now rewrite (IH Hws), Hc.
Qed.

Lemma rstrip_append (a b : string) :
  Str.rstrip (a ++ b) =
  match Str.rstrip b with
  | EmptyString => Str.rstrip a
  | String _ _ => a ++ Str.rstrip b
  end.
Proof.
  induction a as [| c a IH].
  - simpl. now destruct (Str.rstrip b).
  - simpl. rewrite IH. destruct (Str.rstrip b) as [| d r]; [reflexivity |].
    now destruct a.
Qed.

Lemma rstrip_starts (s : string) :
  starts_nonspace s = true -> starts_nonspace (Str.rstrip s) = true.
Proof.
  destruct s as [| c s]; simpl; [discriminate |].
  intros H. destruct (Str.rstrip s); simpl.
  - destruct (Str.isspace c) eqn:Hc; [discriminate | simpl; now rewrite Hc].
  - exact H.
Qed.

Lemma rstrip_idempotent (s : string) : Str.rstrip (Str.rstrip s) = Str.rstrip s.
Proof.
  induction s as [| c s IH]; simpl; [reflexivity |].
  destruct (Str.rstrip s) as [| d r] eqn:E.
  - destruct (Str.isspace c) eqn:Hc; simpl; [reflexivity | now rewrite Hc].
  - change (Str.rstrip (String c (String d r)) = String c (String d r)).
    simpl in IH |- *. now rewrite IH.
Qed.

Lemma rstrip_split (s : string) :
  exists ws, all_space ws = true /\ s = Str.rstrip s ++ ws.
Proof.
  induction s as [| c s (ws & Hws & E)]; simpl.
  - now exists EmptyString.
  - destruct (Str.rstrip s) as [| d r].
    + simpl in E. subst ws. destruct (Str.isspace c) eqn:Hc.
      * exists (String c s). simpl. now rewrite Hc, Hws.
      * now exists s.
    + exists ws. split; [exact Hws |]. simpl in *. now rewrite <- E.
Qed.

Lemma lstrip_split (s : string) :
  exists ws, all_space ws = true /\ s = ws ++ Str.lstrip s.
Proof.
  induction s as [| c s (ws & Hws & E)]; simpl.
  - now exists EmptyString.
  - destruct (Str.isspace c) eqn:Hc.
    + exists (String c ws). simpl. now rewrite Hc, Hws, <- E.
    + now exists EmptyString.
Qed.

Lemma lstrip_starts (s : string) :
  Str.lstrip s = EmptyString \/ starts_nonspace (Str.lstrip s) = true.
Proof.
  induction s as [| c s IH]; simpl; [now left |].
  destruct (Str.isspace c) eqn:Hc; [exact IH |].
  right. simpl. now rewrite Hc.
Qed.

Lemma lstrip_fixed (s : string) :
  starts_nonspace s = true -> Str.lstrip s = s.
Proof.
  destruct s as [| c s]; simpl; [discriminate |].
  now destruct (Str.isspace c).
Qed.

Lemma lstrip_all_space (ws s : string) :
  all_space ws = true -> Str.lstrip (ws ++ s) = Str.lstrip s.
Proof.
  induction ws as [| c ws IH]; simpl; [reflexivity |].
  intros H. apply andb_true_iff in H as [Hc Hws]. now rewrite Hc, IH.
Qed.

Lemma lstrip_keeps_tail (a core : string) :
  starts_nonspace core = true ->
  exists a', Str.lstrip (a ++ core) = a' ++ core.
Proof.
  intros H. induction a as [| c a (a' & E)].
  - exists EmptyString. simpl. now apply lstrip_fixed.
  - simpl. destruct (Str.isspace c).
    + now exists a'.
    + now exists (String c a).
Qed.

Lemma strip_starts (s : string) :
  Str.strip s <> EmptyString -> starts_nonspace (Str.strip s) = true.
Proof.
  unfold Str.strip. intros H.
  destruct (lstrip_starts s) as [E | E].
  - rewrite E in H. now elim H.
  - now apply rstrip_starts.
Qed.

Lemma starts_nonspace_append (a b : string) :
  starts_nonspace a = true -> starts_nonspace (a ++ b) = true.
Proof.
  now destruct a.
Qed.

Lemma rstrip_strip (s : string) : Str.rstrip (Str.strip s) = Str.strip s.
Proof.
  apply rstrip_idempotent.
Qed.

(** ** The settings store *)

Lemma load_config_missing (w : world) :
  config_json w = Missing ->
  load_config w = (write_file CONFIG_PATH (Holds default_config) w, inr default_config).
Proof.
  intros H. destruct w as [cfg prm snt rmt]. simpl in H. subst cfg. reflexivity.
Qed.

Lemma load_config_unreadable (w : world) :
  config_json w = Unreadable ->
  load_config w = (write_file CONFIG_PATH (Holds default_config) w, inr default_config).
Proof.
  intros H. destruct w as [cfg prm snt rmt]. simpl in H. subst cfg. reflexivity.
Qed.

Lemma load_config_holds (w : world) (v : pyval) :
  config_json w = Holds v -> load_config w = (w, inr v).
Proof.
  intros H. destruct w as [cfg prm snt rmt]. simpl in H. subst cfg. reflexivity.
Qed.

(** C8: when the settings file is absent or cannot be read, [load_config]
    writes the default record, whose credential is the placeholder, to the
    file and returns it; the other file and the network are left alone; a
    second [load_config] right after returns the same record and writes
    nothing. *)
Theorem load_config_recovery_round_trips (w : world) :
  config_json w = Missing \/ config_json w = Unreadable ->
  let w' := write_file CONFIG_PATH (Holds default_config) w in
  load_config w = (w', inr default_config)
  /\ config_json w' = Holds default_config
  /\ get default_config "api_key" (PStr EmptyString) = inr (PStr placeholder)
  /\ load_config w' = (w', inr default_config).
Proof.
  intros H w'. split; [| split; [| split]].
  - destruct H as [H | H].
    + now apply load_config_missing.
    + now apply load_config_unreadable.
  - reflexivity.
  - reflexivity.
  - now apply load_config_holds.
Qed.

Lemma load_config_recovery_round_trips_witness :
  let w := {| config_json := Unreadable; prompts_json := Missing;
              sent := []; remote := fun _ => NoReply |} in
  let w' := write_file CONFIG_PATH (Holds default_config) w in
  load_config w = (w', inr default_config)
  /\ config_json w' = Holds default_config
  /\ get default_config "api_key" (PStr EmptyString) = inr (PStr placeholder)
  /\ load_config w' = (w', inr default_config).
Proof.
  intros w. apply (load_config_recovery_round_trips w). right. reflexivity.
Defined.

(** ** Format strings *)

Section FormatFacts.

Variable fe : extended_formatter.

Lemma is_brace_false (c : ascii) :
  is_brace c = false -> (c =? "{")%char = false /\ (c =? "}")%char = false.
Proof.
  unfold is_brace. intros H. now apply orb_false_iff in H.
Qed.

Lemma format_char (value : string) (c : ascii) (s : string) :
  is_brace c = false ->
  Str.format fe value (String c s)
  = Str.emit_char c (Str.format fe value s).
Proof.
  intros H. apply is_brace_false in H as [Ho Hc].
  simpl. now rewrite Ho, Hc.
Qed.

Lemma format_open (value s : string) :
  Str.format fe value ("{{" ++ s)
  = Str.emit_char "{" (Str.format fe value s).
Proof.
  reflexivity.
Qed.

Lemma format_close (value s : string) :
  Str.format fe value ("}}" ++ s)
  = Str.emit_char "}" (Str.format fe value s).
Proof.
  reflexivity.
Qed.

Lemma format_marker (value s : string) :
  Str.format fe value (marker ++ s)
  = option_map (append value) (Str.format fe value s).
Proof.
  unfold marker. simpl. unfold Str.emit_field. simpl.
  now destruct (Str.format fe value s).
Qed.

Lemma format_source (value : string) (ps : list piece) :
  forallb well_formed_piece ps = true ->
  Str.format fe value (source ps) = Some (expansion value ps).
Proof.
  induction ps as [| p ps IH]; [reflexivity |].
  intros H. simpl in H. apply andb_true_iff in H as [Hp Hps].
  specialize (IH Hps). destruct p; cbn [source expansion].
  - simpl in Hp. apply negb_true_iff in Hp.
    now rewrite (format_char _ _ _ Hp), IH.
  - now rewrite format_open, IH.
  - now rewrite format_close, IH.
  - now rewrite format_marker, IH.
Qed.

Lemma format_brace_free (value lit s : string) :
  brace_free lit = true ->
  Str.format fe value (lit ++ s)
  = option_map (append lit) (Str.format fe value s).
Proof.
  induction lit as [| c lit IH]; intros H.
  - simpl. now destruct (Str.format fe value s).
  - simpl in H. apply andb_true_iff in H as [Hc Hlit].
    apply negb_true_iff in Hc.
    change (String c lit ++ s) with (String c (lit ++ s)).
    rewrite (format_char _ _ _ Hc), (IH Hlit).
    now destruct (Str.format fe value s).
Qed.

Lemma format_around_marker (value before after : string) :
  brace_free before = true -> brace_free after = true ->
  Str.format fe value (before ++ marker ++ after)
  = Some (before ++ value ++ after).
Proof.
  intros Hb Ha.
  rewrite (format_brace_free _ _ _ Hb), format_marker.
  rewrite <- (append_empty_r after) at 1.
  rewrite (format_brace_free _ _ _ Ha). simpl.
  now rewrite append_empty_r.
Qed.

End FormatFacts.

(** The scanner at work; [raising] stands for extended fields. *)
Example format_samples :
  Str.format raising "V" "a {text} b" = Some "a V b"
  /\ Str.format raising "V" "{{{text}}}" = Some "{V}"
  /\ Str.format raising "V" "{{text}}" = Some "{text}"
  /\ Str.format raising "V" "{text} {tone}" = None
  /\ Str.format raising "V" "{text} {0}" = None
  /\ Str.format raising "V" "{text} {" = None
  /\ Str.format raising "V" "{text} }" = None
  /\ Str.format raising "V" "{text:}" = Some "V"
  /\ Str.format (fun _ _ _ v => Some (v ++ v)) "V" "{text!r}, {text[0]:>{text}}"
     = Some "VV, VV".
Proof.
  repeat split.
Qed.

(** ** The prompt resolver *)

Section ResolverFacts.

Variable format_extended : extended_formatter.

Lemma combine_formatted (captured instruction formatted : string) :
  Str.contains marker instruction = true ->
  Str.format format_extended captured instruction = Some formatted ->
  _combine_prompt format_extended captured instruction
  = formatted ++ strict_suffix.
Proof.
  intros Hm Hf. unfold _combine_prompt. now rewrite Hm, Hf.
Qed.

Lemma combine_fallback (captured instruction : string) :
  Str.contains marker instruction = true ->
  Str.format format_extended captured instruction = None ->
  _combine_prompt format_extended captured instruction
  = instruction ++ blank_line ++ captured ++ strict_suffix.
Proof.
  intros Hm Hf. unfold _combine_prompt. rewrite Hm, Hf.
  now rewrite !append_assoc.
Qed.

Lemma combine_plain (captured instruction : string) :
  Str.contains marker instruction = false ->
  _combine_prompt format_extended captured instruction
  = Str.strip (Str.strip instruction ++ blank_line ++ captured)
    ++ strict_suffix.
Proof.
  intros Hm. unfold _combine_prompt. now rewrite Hm.
Qed.

Lemma combine_ends_with_suffix (captured instruction : string) :
  exists body,
    _combine_prompt format_extended captured instruction
    = body ++ strict_suffix.
Proof.
  unfold _combine_prompt.
  destruct (Str.contains marker instruction).
  - destruct (Str.format format_extended captured instruction);
      eexists; reflexivity.
  - eexists; reflexivity.
Qed.

Lemma marker_occurs_around (before after : string) :
  Str.contains marker (before ++ marker ++ after) = true.
Proof.
  apply occurs_contains. now exists before, after.
Qed.

(** Trimming [x ++ t] keeps the trimmed [t]. *)
Lemma strip_append_keeps (x t : string) :
  occurs (Str.strip t) (Str.strip (x ++ t)).
Proof.
  destruct (string_dec (Str.strip t) EmptyString) as [E0 | Hne].
  - rewrite E0. now exists EmptyString, (Str.strip (x ++ t)).
  - pose proof (strip_starts t Hne) as Hstart.
    pose proof (rstrip_strip t) as Hfix.
    destruct (lstrip_split t) as (ws1 & Hws1 & E1).
    destruct (rstrip_split (Str.lstrip t)) as (ws2 & Hws2 & E2).
    fold (Str.strip t) in E2.
    assert (Et : x ++ t = (x ++ ws1) ++ Str.strip t ++ ws2).
    { rewrite append_assoc, <- E2, <- E1. reflexivity. }
    destruct (lstrip_keeps_tail (x ++ ws1) (Str.strip t ++ ws2)
                (starts_nonspace_append _ _ Hstart)) as (a' & Ea).
    assert (Es : Str.strip (x ++ t) = a' ++ Str.strip t).
    { unfold Str.strip at 1.
      rewrite Et, Ea, (rstrip_append a'), (rstrip_append (Str.strip t) ws2).
      rewrite (rstrip_all_space ws2 Hws2), Hfix.
      destruct (Str.strip t); [now elim Hne | reflexivity]. }
    rewrite Es. exists a', EmptyString. now rewrite append_empty_r.
Qed.

Lemma field_occurs_in_source (ps : list piece) :
  existsb is_field ps = true -> occurs marker (source ps).
Proof.
  induction ps as [| p ps IH]; simpl; [discriminate |].
  destruct p; simpl; intros H.
  - apply (occurs_append_l _ _ (String c EmptyString)), IH, H.
  - apply (occurs_append_l _ _ "{{"), IH, H.
  - apply (occurs_append_l _ _ "}}"), IH, H.
  - now exists EmptyString, (source ps).
Qed.

Lemma value_occurs_in_expansion (value : string) (ps : list piece) :
  existsb is_field ps = true -> occurs value (expansion value ps).
Proof.
  induction ps as [| p ps IH]; simpl; [discriminate |].
  destruct p; simpl; intros H.
  - apply (occurs_append_l _ _ (String c EmptyString)), IH, H.
  - apply (occurs_append_l _ _ "{"), IH, H.
  - apply (occurs_append_l _ _ "}"), IH, H.
  - now exists EmptyString, (expansion value ps).
Qed.

End ResolverFacts.

(** The built-in Fix Grammar template on the text [helo wrld]. *)
Example fix_grammar_payload (fe : extended_formatter) :
  _combine_prompt fe "helo wrld" (prompt_text fix_grammar)
  = "Correct any spelling and grammar mistakes in the following text. "
    ++ "Output ONLY the corrected text with no explanations or notes:"
    ++ blank_line ++ "helo wrld" ++ strict_suffix.
Proof.
  reflexivity.
Qed.

(** *** The algorithm of the resolver *)

(** C1, read to the letter, fails on an instruction whose marker stands
    inside doubled braces: the instruction contains the marker, formatting
    does not raise, and the output is the marker in single braces followed
    by the directive; the captured text is nowhere in it.  No extended
    field occurs, so this holds whatever [format_extended] is. *)
Lemma doubled_braces_not_substituted :
  ~ exists fe : extended_formatter, substitutes_at_marker fe "hello" "{{text}}".
Proof.
  intros (fe & H & _).
  assert (Eout : _combine_prompt fe "hello" "{{text}}"
                 = "{text}" ++ strict_suffix) by reflexivity.
  cbv zeta in H. rewrite Eout in H.
  destruct (H eq_refl) as [(before & after & E1 & E2) | E].
  - apply (f_equal String.length) in E1. apply (f_equal String.length) in E2.
    repeat rewrite length_append in E1. repeat rewrite length_append in E2.
    change (String.length "{{text}}") with 8 in E1.
    change (String.length marker) with 6 in E1.
    change (String.length "{text}") with 6 in E2.
    change (String.length "hello") with 5 in E2.
    lia.
  - vm_compute in E. discriminate E.
Qed.

(** C1 (amended): the instruction is expanded as a format string with
    [text] bound to the captured text.  In an instruction written with
    ordinary characters, doubled braces and at least one marker, each
    marker gives the captured text and each doubled brace a single one;
    when the instruction contains the marker and the expansion raises, the
    output is the instruction, a blank line and the captured text; in
    every case, the marker present or not, the directive ends the
    output. *)
Theorem combine_prompt_algorithm (fe : extended_formatter) (captured : string) :
  (forall ps : list piece,
      forallb well_formed_piece ps = true ->
      existsb is_field ps = true ->
      _combine_prompt fe captured (source ps)
      = expansion captured ps ++ strict_suffix)
  /\ (forall instruction : string,
         Str.contains marker instruction = true ->
         Str.format fe captured instruction = None ->
         _combine_prompt fe captured instruction
         = instruction ++ blank_line ++ captured ++ strict_suffix)
  /\ (forall instruction : string,
         exists body,
           _combine_prompt fe captured instruction = body ++ strict_suffix).
Proof.
  split; [| split].
  - intros ps Hwf Hfield. apply combine_formatted.
    + apply occurs_contains. now apply field_occurs_in_source.
    + now apply format_source.
  - intros instruction Hm Hf. now apply combine_fallback.
  - intros instruction. apply combine_ends_with_suffix.
Qed.

Lemma combine_prompt_algorithm_witness :
  _combine_prompt raising "helo wrld" "{{Fix}}: {text}"
  = "{Fix}: helo wrld" ++ strict_suffix
  /\ _combine_prompt raising "helo wrld" "{text} in a {tone} tone"
     = "{text} in a {tone} tone" ++ blank_line ++ "helo wrld" ++ strict_suffix.
Proof.
  destruct (combine_prompt_algorithm raising "helo wrld") as (Hok & Hraise & _).
  split.
  - apply (Hok [Open; Chr "F"; Chr "i"; Chr "x"; Close; Chr ":"; Chr " ";
                Field]); reflexivity.
  - apply Hraise; reflexivity.
Defined.

(** *** Instructions without the marker *)

(** C5 fails on a captured text that ends in a space: the outer trim of
    the resolver removes the space, and the text as captured is not part
    of the output. *)
Lemma trailing_space_not_in_output :
  ~ exists fe : extended_formatter, instruction_then_text fe "hi " "Fix".
Proof.
  intros (fe & H).
  destruct (H eq_refl) as ((before & between & after & E & _) & _).
  assert (C : Str.contains "hi " (_combine_prompt fe "hi " "Fix") = true).
  { apply occurs_contains.
    exists (before ++ Str.strip "Fix" ++ between), after.
    rewrite E, !append_assoc. reflexivity. }
  vm_compute in C. discriminate C.
Qed.

(** C5 (amended): for an instruction without the marker whose trimmed form
    is not empty, and a captured text that is not all whitespace, the
    output is the trimmed instruction, a blank line, the captured text
    without its trailing whitespace, and the directive. *)
Theorem plain_instruction_layout
        (fe : extended_formatter) (captured instruction : string) :
  Str.contains marker instruction = false ->
  Str.strip instruction <> EmptyString ->
  Str.rstrip captured <> EmptyString ->
  _combine_prompt fe captured instruction
  = Str.strip instruction ++ blank_line ++ Str.rstrip captured
    ++ strict_suffix.
Proof.
  intros Hm Hi Hc. rewrite (combine_plain _ _ _ Hm).
  unfold Str.strip at 1.
  rewrite (lstrip_fixed _ (starts_nonspace_append _ _ (strip_starts _ Hi))).
  rewrite (rstrip_append (Str.strip instruction)).
  rewrite (rstrip_append blank_line captured).
  destruct (Str.rstrip captured) as [| c r]; [now elim Hc |].
  change (blank_line ++ String c r)
    with (String Str.LF (String Str.LF (String c r))).
  cbv iota. now rewrite append_assoc.
Qed.

Lemma plain_instruction_layout_witness :
  _combine_prompt raising "  helo wrld  " " Fix the spelling "
  = "Fix the spelling" ++ blank_line ++ "  helo wrld" ++ strict_suffix.
Proof.
  apply (plain_instruction_layout raising "  helo wrld  " " Fix the spelling ");
    [reflexivity | discriminate | discriminate].
Defined.

(** *** The captured text in the payload *)

(** C6 fails on a template without the marker and a captured text that ends
    in a space: the resolver appends no marker, it trims what it has put
    together, and the captured text with its space is not in the payload. *)
Lemma captured_text_trimmed_away :
  ~ exists fe : extended_formatter, text_kept fe "one two " "Summarise".
Proof.
  intros (fe & H). apply occurs_contains in H.
  vm_compute in H. discriminate H.
Qed.

(** C6 (amended): the resolver appends no marker.  For a template without
    the marker it trims the template, the blank line and the captured text
    put together, so the payload contains the captured text trimmed; when
    formatting raises, the payload contains the captured text as it is; for
    a template written with ordinary characters, doubled braces and at
    least one marker, it contains the captured text as it is.  It is the
    editor that appends a blank line and the marker to a template saved
    without one: what it stores always contains the marker. *)
Theorem captured_text_survives (fe : extended_formatter) (captured : string) :
  (forall template : string,
      Str.contains marker template = false ->
      occurs (Str.strip captured) (_combine_prompt fe captured template))
  /\ (forall template : string,
         Str.contains marker template = true ->
         Str.format fe captured template = None ->
         occurs captured (_combine_prompt fe captured template))
  /\ (forall ps : list piece,
         forallb well_formed_piece ps = true ->
         existsb is_field ps = true ->
         occurs captured (_combine_prompt fe captured (source ps)))
  /\ (forall typed : string,
         Str.contains marker (save_and_close_prompt_val typed) = true).
Proof.
  split; [| split; [| split]].
  - intros template Hm. rewrite (combine_plain _ _ _ Hm).
    apply occurs_append_r. rewrite <- append_assoc. apply strip_append_keeps.
  - intros template Hm Hf. rewrite (combine_fallback _ _ _ Hm Hf).
    now exists (template ++ blank_line), strict_suffix; rewrite !append_assoc.
  - intros ps Hwf Hfield.
    rewrite (combine_formatted fe captured (source ps) (expansion captured ps)).
    + apply occurs_append_r. now apply value_occurs_in_expansion.
    + apply occurs_contains. now apply field_occurs_in_source.
    + now apply format_source.
  - intros typed. unfold save_and_close_prompt_val.
    destruct (Str.contains marker (Str.strip typed)) eqn:Hm; cbn [negb].
    + exact Hm.
    + apply occurs_contains. rewrite <- append_assoc.
      apply (strip_append_keeps (Str.rstrip (Str.strip typed) ++ blank_line) marker).
Qed.

Lemma captured_text_survives_witness :
  occurs (Str.strip "one two ") (_combine_prompt raising "one two " "Summarise")
  /\ occurs "one two " (_combine_prompt raising "one two " "{text} as {style}")
  /\ occurs "one two " (_combine_prompt raising "one two " "{text}!")
  /\ Str.contains marker (save_and_close_prompt_val " Summarise ") = true.
Proof.
  destruct (captured_text_survives raising "one two ")
    as (Hplain & Hraise & Hpieces & Heditor).
  split; [| split; [| split]].
  - apply Hplain. reflexivity.
  - apply Hraise; reflexivity.
  - apply (Hpieces [Field; Chr "!"]); reflexivity.
  - apply Heditor.
Defined.

(** *** Reading the captured text back *)

(** C9 fails on a template that holds the marker and a field of another
    name: formatting raises, the fallback keeps the template as typed, and
    what stands at the marker's place is the marker, not the captured
    text. *)
Lemma fallback_breaks_round_trip :
  ~ exists fe : extended_formatter,
      round_trip fe "Fix: " " in a {tone} tone" "helo wrld".
Proof.
  intros (fe & H). vm_compute in H. discriminate H.
Qed.

(** C9 (amended): for a template whose text before and after the marker
    holds no brace, the output is the text before, the captured text, the
    text after and the directive; the segment at the marker's place is the
    captured text. *)
Theorem marker_round_trip
        (fe : extended_formatter) (before after captured : string) :
  brace_free before = true ->
  brace_free after = true ->
  _combine_prompt fe captured (before ++ marker ++ after)
  = before ++ captured ++ after ++ strict_suffix
  /\ round_trip fe before after captured.
Proof.
  intros Hb Ha.
  assert (E : _combine_prompt fe captured (before ++ marker ++ after)
              = before ++ captured ++ after ++ strict_suffix).
  { rewrite (combine_formatted fe captured _ (before ++ captured ++ after)).
    - now rewrite !append_assoc.
    - apply marker_occurs_around.
    - now apply format_around_marker. }
  split; [exact E |].
  unfold round_trip, inserted_segment. rewrite E.
  replace (String.length (before ++ captured ++ after ++ strict_suffix)
           - String.length before - String.length after
           - String.length strict_suffix)
    with (String.length captured)
    by (rewrite !length_append; lia).
  rewrite substring_skip. apply substring_take.
Qed.

Lemma marker_round_trip_witness :
  _combine_prompt raising "helo wrld" ("Fix: " ++ marker ++ " please")
  = "Fix: " ++ "helo wrld" ++ " please" ++ strict_suffix
  /\ round_trip raising "Fix: " " please" "helo wrld".
Proof.
  apply (marker_round_trip raising "Fix: " " please" "helo wrld"); reflexivity.
Defined.

(** ** The template store *)

Lemma load_prompts_missing (w : world) :
  prompts_json w = Missing ->
  load_prompts w
  = (write_file PROMPTS_PATH (Holds (prompts_value _default_prompts)) w,
     inr (prompts_value _default_prompts)).
Proof.
  intros H. destruct w as [cfg prm snt rmt]. simpl in H. subst prm. reflexivity.
Qed.

Lemma load_prompts_unreadable (w : world) :
  prompts_json w = Unreadable ->
  load_prompts w
  = (write_file PROMPTS_PATH (Holds (prompts_value _default_prompts)) w,
     inr (prompts_value _default_prompts)).
Proof.
  intros H. destruct w as [cfg prm snt rmt]. simpl in H. subst prm. reflexivity.
Qed.

Lemma load_prompts_list (w : world) (items : list pyval) :
  prompts_json w = Holds (PList items) -> load_prompts w = (w, inr (PList items)).
Proof.
  intros H. destruct w as [cfg prm snt rmt]. simpl in H. subst prm. reflexivity.
Qed.

(** A document that is not a list: the defaults are returned, nothing is
    written. *)
Lemma load_prompts_not_list (w : world) (v : pyval) :
  prompts_json w = Holds v ->
  is_list v = false ->
  load_prompts w = (w, inr (prompts_value _default_prompts)).
Proof.
  intros H Hv. destruct w as [cfg prm snt rmt]. simpl in H. subst prm.
  destruct v; try reflexivity. discriminate Hv.
Qed.

(** C4: on a template file that holds a JSON object, [load_prompts]
    returns the two defaults, Professional Tone first and Fix Grammar
    second, and leaves the file as it was: the object is still there, the
    defaults are not written. *)
Theorem load_prompts_leaves_non_list_file :
  let w := {| config_json := Missing; prompts_json := Holds (PDict []);
              sent := []; remote := offline |} in
  load_prompts w = (w, inr (prompts_value [professional_tone; fix_grammar]))
  /\ map name _default_prompts = ["Professional Tone"; "Fix Grammar"]
  /\ prompts_json (fst (load_prompts w)) = Holds (PDict [])
  /\ prompts_json (fst (load_prompts w))
     <> Holds (prompts_value _default_prompts).
Proof.
  cbv zeta. repeat split. discriminate.
Qed.

(** ** The API client *)

Section ClientFacts.

Variable fe : extended_formatter.

Lemma call_after_load (w : world) (cfg : pyval) (captured instruction : string) :
  config_json w = Holds cfg ->
  call_openrouter_api fe captured instruction w
  = match get cfg "api_key" (PStr EmptyString) with
    | inl e => (w, inl e)
    | inr key =>
        match strip_method key with
        | inl e => (w, inl e)
        | inr api_key =>
            if (api_key =? EmptyString) || (api_key =? placeholder) then
              (w, inl (RuntimeError ApiKeyMissing))
            else
              (response <-
                 requests_post
                   (build_request api_key
                      (_combine_prompt fe captured instruction)) ;;
               lift (raise_for_status response) ;;
               data <- lift (response_json response) ;;
               lift (first_choice_content data)) w
        end
    end.
Proof.
  intros H. unfold call_openrouter_api.
  unfold bind at 1. rewrite (load_config_holds w cfg H).
  unfold bind at 1. unfold lift at 1.
  destruct (get cfg "api_key" (PStr EmptyString)) as [e | key]; [reflexivity |].
  unfold bind at 1. unfold lift at 1.
  destruct (strip_method key) as [e | api_key]; [reflexivity |].
  now destruct ((api_key =? EmptyString) || (api_key =? placeholder)).
Qed.

Lemma call_with_default_config (w : world) (captured instruction : string) :
  config_json w = Missing \/ config_json w = Unreadable ->
  call_openrouter_api fe captured instruction w
  = (write_file CONFIG_PATH (Holds default_config) w,
     inl (RuntimeError ApiKeyMissing)).
Proof.
  intros H. unfold call_openrouter_api. unfold bind at 1.
  replace (load_config w)
    with (write_file CONFIG_PATH (Holds default_config) w,
          @inr py_exc pyval default_config).
  - reflexivity.
  - symmetry. destruct H as [H | H].
    + now apply load_config_missing.
    + now apply load_config_unreadable.
Qed.

Lemma call_answered (w : world) (cfg : pyval) (key : string)
      (captured instruction : string) (status : Z) (data : pyval) :
  config_json w = Holds cfg ->
  get cfg "api_key" (PStr EmptyString) = inr (PStr key) ->
  usable_key (Str.strip key) = true ->
  remote w (build_request (Str.strip key)
                          (_combine_prompt fe captured instruction))
  = Reply status (Some data) ->
  ((400 <=? status) && (status <? 600))%Z = false ->
  snd (call_openrouter_api fe captured instruction w)
  = first_choice_content data.
Proof.
  intros Hcfg Hkey Huse Hreply Hstatus.
  rewrite (call_after_load w cfg _ _ Hcfg), Hkey. simpl strip_method. cbv iota.
  unfold usable_key in Huse. apply negb_true_iff in Huse. rewrite Huse.
  unfold bind at 1. unfold requests_post. rewrite Hreply.
  unfold bind at 1. unfold lift at 1. unfold raise_for_status. rewrite Hstatus.
  unfold bind at 1. unfold lift at 1. simpl response_json. cbv iota.
  reflexivity.
Qed.

End ClientFacts.

Lemma first_choice_content_of_candidate (data content : pyval) :
  first_candidate_content data = Some content ->
  first_choice_content data
  = if truthy content then inr content else inl (RuntimeError EmptyContent).
Proof.
  unfold first_candidate_content, choices_of, first_choice_content, get.
  destruct data as [| | | | | | items]; try discriminate.
  destruct (lookup "choices" items) as [[| | | | | choices |] |]; try discriminate.
  destruct choices as [| [| | | | | | choice] rest]; try discriminate.
  simpl.
  destruct (lookup "message" choice) as [[| | | | | | message] |];
    try discriminate.
  intros ->. now destruct (truthy content).
Qed.

(** Whatever is returned is the message content of the first candidate. *)
Lemma first_choice_content_verbatim (data content : pyval) :
  first_choice_content data = inr content ->
  first_candidate_content data = Some content /\ truthy content = true.
Proof.
  intros H. unfold first_choice_content, get in H.
  unfold first_candidate_content, choices_of.
  destruct data as [| | | | | | items]; try discriminate H.
  destruct (lookup "choices" items) as [choices |]; [| discriminate H].
  destruct (truthy choices) eqn:Hc; [| discriminate H]. cbn [negb] in H.
  destruct choices as [| | | | | [| choice rest] |]; try discriminate H.
  - simpl in H. destruct s; discriminate H.
  - cbn [getitem0] in H.
    destruct choice as [| | | | | | fields]; try discriminate H.
    destruct (lookup "message" fields) as [message |].
    + destruct message as [| | | | | | inner]; try discriminate H.
      destruct (lookup "content" inner) as [c |].
      * destruct (truthy c) eqn:Ht; [| discriminate H].
        cbn [negb] in H. injection H as ->. now split.
      * discriminate H.
    + discriminate H.
Qed.

(** Bodies of other shapes: a null or absent content counts as empty, a
    body that is not an object has no [get]. *)
Example other_bodies :
  first_choice_content
    (PDict [("choices", PList [PDict [("message", PDict [("content", PNone)])]])])
  = inl (RuntimeError EmptyContent)
  /\ first_choice_content
       (PDict [("choices", PList [PDict [("message", PDict [])]])])
     = inl (RuntimeError EmptyContent)
  /\ first_choice_content (PDict [("choices", PNone)])
     = inl (RuntimeError NoChoices)
  /\ first_choice_content (PList []) = inl AttributeError.
Proof.
  repeat split.
Qed.

(** C7: when the settings give no usable credential (no file, a file that
    cannot be read, no [api_key], a key that is blank or the placeholder
    once trimmed), [call_openrouter_api] raises the missing-key error and
    the list of requests sent is what it was: nothing goes to the network. *)
Theorem missing_credential_sends_nothing
        (fe : extended_formatter) (w : world) (captured instruction : string) :
  credential_missing w ->
  snd (call_openrouter_api fe captured instruction w)
  = inl (RuntimeError ApiKeyMissing)
  /\ sent (fst (call_openrouter_api fe captured instruction w)) = sent w.
Proof.
  intros [H | [H | (items & H & Hkey)]].
  - rewrite call_with_default_config by now left. now split.
  - rewrite call_with_default_config by now right. now split.
  - rewrite (call_after_load fe w _ _ _ H). unfold get.
    destruct Hkey as [-> | (k & -> & Hk)].
    + now split.
    + simpl strip_method. cbv iota.
      destruct Hk as [-> | ->]; now split.
Qed.

Lemma missing_credential_sends_nothing_witness :
  let w := {| config_json := Holds (PDict [("api_key", PStr "  ")]);
              prompts_json := Missing; sent := [];
              remote := fun _ => Reply 200 (Some hello_body) |} in
  snd (call_openrouter_api raising "helo wrld" "Fix: {text}" w)
  = inl (RuntimeError ApiKeyMissing)
  /\ sent (fst (call_openrouter_api raising "helo wrld" "Fix: {text}" w)) = sent w.
Proof.
  intros w. apply (missing_credential_sends_nothing raising w).
  right. right. exists [("api_key", PStr "  ")]. split; [reflexivity |].
  right. exists "  ". split; [reflexivity | left; reflexivity].
Defined.

Lemma first_choice_content_no_choices (items : list (string * pyval)) :
  lookup "choices" items = None
  \/ (exists choices,
         lookup "choices" items = Some choices /\ truthy choices = false) ->
  first_choice_content (PDict items) = inl (RuntimeError NoChoices).
Proof.
  unfold first_choice_content, get.
  intros [-> | (choices & -> & Hc)]; [reflexivity | now rewrite Hc].
Qed.

Lemma first_choice_content_absent
      (items choice : list (string * pyval)) (rest : list pyval) :
  lookup "choices" items = Some (PList (PDict choice :: rest)) ->
  lookup "message" choice = None
  \/ (exists message,
         lookup "message" choice = Some (PDict message)
         /\ lookup "content" message = None) ->
  first_choice_content (PDict items) = inl (RuntimeError EmptyContent).
Proof.
  unfold first_choice_content, get. intros ->.
  cbn [truthy negb getitem0].
  intros [-> | (message & -> & ->)]; reflexivity.
Qed.

Lemma first_choice_content_not_object (data : pyval) :
  (forall items, data <> PDict items) ->
  first_choice_content data = inl AttributeError.
Proof.
  intros H. destruct data; try reflexivity. now elim (H items).
Qed.

(** C2, as worded, fails on a body whose first candidate has [null] as
    content: the content is not the empty string, yet it is not returned,
    the call raises the empty-content error. *)
Lemma null_content_not_returned :
  ~ exists fe : extended_formatter,
      handled_as_specified null_content_body
        (snd (call_openrouter_api fe "helo wrld" "Fix: {text}"
                (answering (Reply 200 (Some null_content_body))))).
Proof.
  intros [fe H].
  rewrite (call_answered fe (answering (Reply 200 (Some null_content_body)))
             (PDict [("api_key", PStr " sk-or-demo ")]) " sk-or-demo "
             "helo wrld" "Fix: {text}" 200 null_content_body
             eq_refl eq_refl eq_refl eq_refl eq_refl) in H.
  discriminate H.
Qed.

(** C2 (amended): with a usable credential and a reply that is not an HTTP
    error and carries a JSON body, [call_openrouter_api] raises the
    no-choices error when the body is an object whose [choices] are absent, an empty list,
    null or any other value that counts as false; it raises the
    empty-content error when the message content of the first candidate is
    the empty string, null or any other value that counts as false, and
    when the first candidate has no message or the message no content; it
    returns the content exactly as it stands in the body when it is any
    other value, a non-empty string in particular; whatever it returns is
    such a content; and a body that is not an object raises
    AttributeError. *)
Theorem first_choice_returned_verbatim
        (fe : extended_formatter) (w : world) (cfg : pyval) (key : string)
        (captured instruction : string) (status : Z) (data : pyval) :
  config_json w = Holds cfg ->
  get cfg "api_key" (PStr EmptyString) = inr (PStr key) ->
  usable_key (Str.strip key) = true ->
  remote w (build_request (Str.strip key)
                          (_combine_prompt fe captured instruction))
  = Reply status (Some data) ->
  ((400 <=? status) && (status <? 600))%Z = false ->
  let outcome := snd (call_openrouter_api fe captured instruction w) in
  (forall items,
      data = PDict items ->
      lookup "choices" items = None
      \/ (exists choices,
             lookup "choices" items = Some choices
             /\ truthy choices = false) ->
      outcome = inl (RuntimeError NoChoices))
  /\ (forall content,
         first_candidate_content data = Some content ->
         truthy content = false ->
         outcome = inl (RuntimeError EmptyContent))
  /\ (forall items choice rest,
         data = PDict items ->
         lookup "choices" items = Some (PList (PDict choice :: rest)) ->
         lookup "message" choice = None
         \/ (exists message,
                lookup "message" choice = Some (PDict message)
                /\ lookup "content" message = None) ->
         outcome = inl (RuntimeError EmptyContent))
  /\ (forall content,
         first_candidate_content data = Some content ->
         truthy content = true ->
         outcome = inr content)
  /\ (forall content,
         outcome = inr content ->
         first_candidate_content data = Some content
         /\ truthy content = true)
  /\ ((forall items, data <> PDict items) -> outcome = inl AttributeError).
Proof.
  intros Hcfg Hkey Huse Hreply Hstatus outcome.
  assert (E : outcome = first_choice_content data)
    by exact (call_answered fe w cfg key _ _ status data
                Hcfg Hkey Huse Hreply Hstatus).
  rewrite E. split; [| split; [| split; [| split; [| split]]]].
  - intros items -> Hc. now apply first_choice_content_no_choices.
  - intros content Hc Ht.
    now rewrite (first_choice_content_of_candidate _ _ Hc), Ht.
  - intros items choice rest -> Hc Hm.
    now apply (first_choice_content_absent items choice rest).
  - intros content Hc Ht.
    now rewrite (first_choice_content_of_candidate _ _ Hc), Ht.
  - intros content Hc. now apply first_choice_content_verbatim.
  - apply first_choice_content_not_object.
Qed.

Lemma first_choice_returned_verbatim_witness :
  snd (call_openrouter_api raising "helo wrld" "Fix: {text}"
         (answering (Reply 200 (Some hello_body))))
  = inr (PStr "Hello")
  /\ snd (call_openrouter_api raising "helo wrld" "Fix: {text}"
            (answering (Reply 200 (Some (PDict [("choices", PList [])])))))
     = inl (RuntimeError NoChoices)
  /\ snd (call_openrouter_api raising "helo wrld" "Fix: {text}"
            (answering (Reply 200 (Some null_content_body))))
     = inl (RuntimeError EmptyContent).
Proof.
  split; [| split].
  - destruct (first_choice_returned_verbatim raising
                (answering (Reply 200 (Some hello_body)))
                (PDict [("api_key", PStr " sk-or-demo ")]) " sk-or-demo "
                "helo wrld" "Fix: {text}" 200 hello_body
                eq_refl eq_refl eq_refl eq_refl eq_refl)
      as (_ & _ & _ & H & _).
    apply (H (PStr "Hello")); reflexivity.
  - apply (proj1 (first_choice_returned_verbatim raising
             (answering (Reply 200 (Some (PDict [("choices", PList [])]))))
             (PDict [("api_key", PStr " sk-or-demo ")]) " sk-or-demo "
             "helo wrld" "Fix: {text}" 200 (PDict [("choices", PList [])])
             eq_refl eq_refl eq_refl eq_refl eq_refl)
             [("choices", PList [])] eq_refl).
    right. exists (PList []). split; reflexivity.
  - destruct (first_choice_returned_verbatim raising
                (answering (Reply 200 (Some null_content_body)))
                (PDict [("api_key", PStr " sk-or-demo ")]) " sk-or-demo "
                "helo wrld" "Fix: {text}" 200 null_content_body
                eq_refl eq_refl eq_refl eq_refl eq_refl)
      as (_ & H & _).
    apply (H PNone); reflexivity.
Defined.

(** ** The prompt picker *)

Lemma insert_by_lower_length (x : string) (l : list string) :
  length (insert_by_lower x l) = S (length l).
Proof.
  induction l as [| y l IH]; simpl; [reflexivity |].
  destruct (Str.lower x <=? Str.lower y)%string; simpl; [reflexivity |].
  now rewrite IH.
Qed.

Lemma sorted_by_lower_length (l : list string) :
  length (sorted_by_lower l) = length l.
Proof.
  induction l as [| x l IH]; simpl; [reflexivity |].
  now rewrite insert_by_lower_length, IH.
Qed.

Lemma insert_by_lower_perm (x : string) (l : list string) :
  Permutation (insert_by_lower x l) (x :: l).
Proof.
  induction l as [| y l IH]; simpl; [apply Permutation_refl |].
  destruct (Str.lower x <=? Str.lower y)%string; [apply Permutation_refl |].
  apply Permutation_trans with (y :: x :: l);
    [now apply perm_skip | apply perm_swap].
Qed.

(** The sorted list holds the same names. *)
Lemma sorted_by_lower_perm (l : list string) :
  Permutation (sorted_by_lower l) l.
Proof.
  induction l as [| x l IH]; simpl; [apply perm_nil |].
  apply Permutation_trans with (x :: sorted_by_lower l);
    [apply insert_by_lower_perm | now apply perm_skip].
Qed.

Lemma insert_by_lower_head (a x : string) (l : list string) :
  HdRel lower_le a l -> lower_le a x -> HdRel lower_le a (insert_by_lower x l).
Proof.
  intros Hl Hx. destruct l as [| y l]; simpl.
  - now constructor.
  - destruct (Str.lower x <=? Str.lower y)%string.
    + now constructor.
    + constructor. now inversion Hl.
Qed.

Lemma insert_by_lower_sorted (x : string) (l : list string) :
  Sorted lower_le l -> Sorted lower_le (insert_by_lower x l).
Proof.
  induction l as [| y l IH]; intros H; simpl.
  - repeat constructor.
  - destruct (Str.lower x <=? Str.lower y)%string eqn:E.
    + constructor; [exact H | now constructor].
    + inversion H as [| ? ? Hs Hh]; subst.
      constructor; [now apply IH |].
      apply insert_by_lower_head; [exact Hh |].
      unfold lower_le.
      destruct (String.leb_total (Str.lower x) (Str.lower y)) as [T | T];
        [congruence | exact T].
Qed.

(** The sorted list is in order. *)
Lemma sorted_by_lower_sorted (l : list string) :
  Sorted lower_le (sorted_by_lower l).
Proof.
  induction l as [| x l IH]; simpl; [constructor |].
  now apply insert_by_lower_sorted.
Qed.

(** Names that differ by case only keep their stored order. *)
Example sorted_by_lower_sample :
  sorted_by_lower ["b"; "a"; "B"; "A"; "Zed"; "apple"]
  = ["a"; "A"; "apple"; "b"; "B"; "Zed"].
Proof.
  reflexivity.
Qed.

(** A name stored twice keeps its first place and its last template. *)
Example name_to_prompt_sample :
  name_to_prompt_of [ {| name := "a"; prompt_text := "1" |};
                      {| name := "b"; prompt_text := "2" |};
                      {| name := "a"; prompt_text := "3" |} ]
  = [("a", "3"); ("b", "2")].
Proof.
  reflexivity.
Qed.

Lemma lookup_of_key (n : string) (d : list (string * string)) :
  In n (keys d) -> exists template, lookup n d = Some template.
Proof.
  induction d as [| [k v] d IH]; simpl; [intros [] |].
  destruct (k =? n)%string eqn:E.
  - intros _. now exists v.
  - intros [H | H]; [| now apply IH].
    apply String.eqb_neq in E. now elim E.
Qed.

Lemma keys_dict_set_new (k v : string) (d : list (string * string)) :
  ~ In k (keys d) -> keys (dict_set k v d) = (keys d ++ [k])%list.
Proof.
  induction d as [| [k' v'] d IH]; simpl; [reflexivity |].
  intros H. destruct (k' =? k)%string eqn:E.
  - apply String.eqb_eq in E. elim H. now left.
  - simpl. rewrite IH; [reflexivity |]. intros Hin. apply H. now right.
Qed.

Lemma keys_of_distinct_names (ps : list prompt) (d : list (string * string)) :
  NoDup (keys d ++ map name ps) ->
  keys (fold_left (fun d p => dict_set (name p) (prompt_text p) d) ps d)
  = (keys d ++ map name ps)%list.
Proof.
  revert d. induction ps as [| p ps IH]; intros d H; simpl.
  - now rewrite app_nil_r.
  - assert (Hnew : ~ In (name p) (keys d)).
    { simpl in H. apply NoDup_remove_2 in H. intros Hin. apply H.
      apply in_or_app. now left. }
    rewrite IH; rewrite (keys_dict_set_new _ _ _ Hnew).
    + now rewrite <- app_assoc.
    + rewrite <- app_assoc. exact H.
Qed.

Lemma same_entries (l1 l2 : list string) :
  length l1 = length l2 ->
  (forall i, i < length l1 -> nth_error l1 i = nth_error l2 i) ->
  l1 = l2.
Proof.
  intros Hlen H. apply nth_error_ext. intros i.
  destruct (Nat.lt_ge_cases i (length l1)) as [Hi | Hi]; [now apply H |].
  assert (H1 : nth_error l1 i = None) by now apply nth_error_None.
  assert (H2 : nth_error l2 i = None)
    by (apply nth_error_None; now rewrite <- Hlen).
  now rewrite H1, H2.
Qed.

Lemma selected_name_in_range (captured : string) (prompts : list prompt) (i : Z) :
  let names := keys (name_to_prompt_of prompts) in
  (0 <= i < Z.of_nat (length names))%Z ->
  selected_name
    (_select_prompt i (_enter_prompt_select (PromptWindow_init captured prompts)))
  = nth_error names (Z.to_nat i).
Proof.
  intros names [Hlo Hhi].
  unfold selected_name, _select_prompt, _enter_prompt_select, with_selection,
    PromptWindow_init.
  cbn [name_to_prompt selected_prompt_index]. fold names.
  apply Z.leb_le in Hlo. apply Z.ltb_lt in Hhi. now rewrite Hlo, Hhi.
Qed.

Lemma highlighted_name_in_range (captured : string) (prompts : list prompt) (i : Z) :
  let names := keys (name_to_prompt_of prompts) in
  (0 <= i)%Z ->
  highlighted_name
    (_select_prompt i (_enter_prompt_select (PromptWindow_init captured prompts)))
  = nth_error (sorted_by_lower names) (Z.to_nat i).
Proof.
  intros names Hlo.
  unfold highlighted_name, prompt_buttons, _select_prompt,
    _enter_prompt_select, with_selection, PromptWindow_init.
  cbn [sorted_prompt_names selected_prompt_index]. fold names.
  apply Z.leb_le in Hlo. now rewrite Hlo.
Qed.

Lemma submit_in_select_mode (captured : string) (prompts : list prompt) (i : Z) :
  let pw := _select_prompt i (_enter_prompt_select
                                (PromptWindow_init captured prompts)) in
  _submit pw
  = match selected_name pw with
    | Some selected =>
        match lookup selected (name_to_prompt_of prompts) with
        | Some template =>
            if template =? EmptyString then None else Some template
        | None => None
        end
    | None => None
    end.
Proof.
  intros pw. unfold _submit.
  change (prompt_select_mode pw) with true. cbv iota.
  change (name_to_prompt pw) with (name_to_prompt_of prompts).
  destruct (selected_name pw) as [selected |]; [| reflexivity].
  now destruct (lookup selected (name_to_prompt_of prompts)).
Qed.

(** The arrow keys keep the selected row among the buttons, and there are
    as many buttons as keys: a row that can be reached is in range. *)
Lemma navigate_in_range (step : Z) (pw : PromptWindow) :
  prompt_select_mode pw = true ->
  prompt_buttons pw <> [] ->
  (0 <= selected_prompt_index (_navigate step pw)
   < Z.of_nat (length (prompt_buttons (_navigate step pw))))%Z.
Proof.
  intros Hmode Hne. unfold _navigate.
  destruct (prompt_buttons pw) as [| b bs] eqn:E; [now elim Hne |].
  rewrite Hmode.
  unfold _select_prompt, with_selection, prompt_buttons in *.
  cbn [selected_prompt_index sorted_prompt_names]. rewrite E.
  apply Z.mod_pos_bound. simpl. lia.
Qed.

Lemma buttons_match_keys (captured : string) (prompts : list prompt) :
  length (prompt_buttons (PromptWindow_init captured prompts))
  = length (keys (name_to_prompt (PromptWindow_init captured prompts))).
Proof.
  apply sorted_by_lower_length.
Qed.

Lemma insert_by_lower_at_head (x : string) (l : list string) :
  HdRel lower_le x l -> insert_by_lower x l = x :: l.
Proof.
  intros H. destruct l as [| y l]; [reflexivity |].
  inversion H as [| ? ? Hxy]; subst. unfold lower_le in Hxy.
  cbn [insert_by_lower]. now rewrite Hxy.
Qed.

(** A list that is in order is left as it is: the sort is stable. *)
Lemma sorted_by_lower_fixed (l : list string) :
  Sorted lower_le l -> sorted_by_lower l = l.
Proof.
  induction l as [| x l IH]; intros H; [reflexivity |].
  inversion H as [| ? ? Hs Hh]; subst.
  change (sorted_by_lower (x :: l)) with (insert_by_lower x (sorted_by_lower l)).
  rewrite (IH Hs). now apply insert_by_lower_at_head.
Qed.

Lemma same_instruction (t1 t2 : string) :
  (if (t1 =? EmptyString)%string then None else Some t1)
  = (if (t2 =? EmptyString)%string then None else Some t2) ->
  t1 = t2.
Proof.
  destruct (t1 =? EmptyString)%string eqn:E1,
           (t2 =? EmptyString)%string eqn:E2; try discriminate.
  - intros _. apply String.eqb_eq in E1, E2. congruence.
  - now intros [= ->].
Qed.

(** C3, as worded, fails on a list that stores one template under two
    names, Polish before Fix: the picker shows Fix, Polish, and on both
    rows [_submit] dispatches the template of the highlighted name, though
    the names are not stored in their sorted order. *)
Lemma same_template_under_two_names :
  ~ agree_only_when_sorted "helo wrld" same_text_prompts.
Proof.
  intros H.
  assert (E : keys (name_to_prompt
                      (PromptWindow_init "helo wrld" same_text_prompts))
              = sorted_prompt_names
                  (PromptWindow_init "helo wrld" same_text_prompts)).
  { apply H. intros i Hi.
    assert (Hcases : i = 0%Z \/ i = 1%Z) by (simpl in Hi; lia).
    destruct Hcases as [-> | ->]; vm_compute; reflexivity. }
  vm_compute in E. discriminate E.
Qed.

(** C3 (amended): the picker shows the keys of the template mapping sorted
    without regard to case: the same names, in order, and in the stored
    order exactly when that order is sorted.  Row [i] being selected,
    [_submit] takes the name at place [i] of the keys, which stand in the
    order the templates are stored, and dispatches the template of that
    name, while the highlighted button shows the name at place [i] of the
    sorted list.  The name dispatched is the name highlighted on every row
    exactly when the stored order is the sorted one; then the template
    dispatched is the template of the highlighted name on every row; and
    when different names carry different templates, only then. *)
Theorem picker_dispatches_by_stored_order
        (captured : string) (prompts : list prompt) :
  let pw := PromptWindow_init captured prompts in
  let names := keys (name_to_prompt pw) in
  let shown := sorted_prompt_names pw in
  let pick := fun i : Z => _select_prompt i (_enter_prompt_select pw) in
  let in_range := fun i : Z => (0 <= i < Z.of_nat (length names))%Z in
  (Permutation shown names
   /\ Sorted lower_le shown
   /\ (names = shown <-> Sorted lower_le names))
  /\ (NoDup (map name prompts) -> names = map name prompts)
  /\ (forall i, in_range i ->
        selected_name (pick i) = nth_error names (Z.to_nat i)
        /\ highlighted_name (pick i) = nth_error shown (Z.to_nat i)
        /\ exists selected template,
            selected_name (pick i) = Some selected
            /\ lookup selected (name_to_prompt pw) = Some template
            /\ _submit (pick i)
               = if template =? EmptyString then None else Some template)
  /\ ((forall i, in_range i -> selected_name (pick i) = highlighted_name (pick i))
      <-> names = shown)
  /\ (names = shown ->
      forall i, in_range i -> dispatches_highlighted (pick i))
  /\ (distinct_templates (name_to_prompt pw) ->
      (forall i, in_range i -> dispatches_highlighted (pick i)) ->
      names = shown).
Proof.
  intros pw names shown pick in_range.
  assert (Hsel : forall i, in_range i ->
                   selected_name (pick i) = nth_error names (Z.to_nat i))
    by (intros i Hi; now apply selected_name_in_range).
  assert (Hhigh : forall i, in_range i ->
                    highlighted_name (pick i)
                    = nth_error shown (Z.to_nat i))
    by (intros i [Hi _]; now apply highlighted_name_in_range).
  assert (Hlen : length names = length shown)
    by (symmetry; apply sorted_by_lower_length).
  assert (Hperm : Permutation shown names) by apply sorted_by_lower_perm.
  assert (Hrow : forall i, in_range i ->
                   exists selected template,
                     nth_error names (Z.to_nat i) = Some selected
                     /\ lookup selected (name_to_prompt pw) = Some template
                     /\ _submit (pick i)
                        = if template =? EmptyString then None
                          else Some template).
  { intros i Hi.
    destruct (nth_error names (Z.to_nat i)) as [selected |] eqn:En.
    - destruct (lookup_of_key selected (name_to_prompt pw)) as (template & Ht).
      { apply (nth_error_In _ _ En). }
      exists selected, template. split; [reflexivity |].
      split; [exact Ht |].
      unfold pick, pw. rewrite submit_in_select_mode.
      fold pw. fold (pick i). rewrite (Hsel i Hi), En.
      change (name_to_prompt_of prompts) with (name_to_prompt pw).
      now rewrite Ht.
    - apply nth_error_None in En. unfold in_range in Hi. lia. }
  split; [| split; [| split; [| split; [| split]]]].
  - split; [exact Hperm |]. split; [apply sorted_by_lower_sorted |].
    split.
    + intros E. rewrite E. apply sorted_by_lower_sorted.
    + intros Hs. symmetry. exact (sorted_by_lower_fixed names Hs).
  - intros Hnd. apply (keys_of_distinct_names prompts []). exact Hnd.
  - intros i Hi. split; [now apply Hsel | split; [now apply Hhigh |]].
    destruct (Hrow i Hi) as (selected & template & En & Ht & Hs).
    exists selected, template. rewrite (Hsel i Hi). now repeat split.
  - split.
    + intros Hall. apply same_entries; [exact Hlen |].
      intros n Hn.
      assert (Hi : in_range (Z.of_nat n)) by (unfold in_range; lia).
      specialize (Hall _ Hi).
      rewrite (Hsel _ Hi), (Hhigh _ Hi), Nat2Z.id in Hall. exact Hall.
    + intros E i Hi. rewrite (Hsel i Hi), (Hhigh i Hi). now rewrite <- E.
  - intros E i Hi.
    destruct (Hrow i Hi) as (selected & template & En & Ht & Hs).
    unfold dispatches_highlighted, highlighted_template.
    rewrite (Hhigh i Hi), <- E, En.
    change (name_to_prompt (pick i)) with (name_to_prompt pw).
    rewrite Ht. exact Hs.
  - intros Hd Hall. apply same_entries; [exact Hlen |].
    intros n Hn.
    assert (Hi : in_range (Z.of_nat n)) by (unfold in_range; lia).
    destruct (Hrow _ Hi) as (n1 & t1 & En1 & Ht1 & Hs1).
    specialize (Hall _ Hi).
    unfold dispatches_highlighted, highlighted_template in Hall.
    rewrite (Hhigh _ Hi) in Hall.
    rewrite Nat2Z.id in En1, Hall.
    rewrite En1.
    destruct (nth_error shown n) as [n2 |]; [| now elim Hall].
    change (name_to_prompt (pick (Z.of_nat n))) with (name_to_prompt pw) in Hall.
    destruct (lookup n2 (name_to_prompt pw)) as [t2 |] eqn:Ht2;
      [| now elim Hall].
    rewrite Hs1 in Hall. apply same_instruction in Hall. subst t2.
    f_equal. exact (Hd n1 n2 t1 Ht1 Ht2).
Qed.

Lemma picker_dispatches_by_stored_order_witness :
  (highlighted_name
     (_select_prompt 0 (_enter_prompt_select
                          (PromptWindow_init "helo wrld" _default_prompts)))
   = nth_error (sorted_by_lower ["Professional Tone"; "Fix Grammar"]) 0
   /\ selected_name
        (_select_prompt 0 (_enter_prompt_select
                             (PromptWindow_init "helo wrld" _default_prompts)))
      = nth_error ["Professional Tone"; "Fix Grammar"] 0)
  /\ (keys (name_to_prompt (PromptWindow_init "helo wrld" mixed_case_prompts))
      = sorted_prompt_names (PromptWindow_init "helo wrld" mixed_case_prompts)
      /\ dispatches_highlighted
           (_select_prompt 1
              (_enter_prompt_select
                 (PromptWindow_init "helo wrld" mixed_case_prompts))))
  /\ ~ (forall i : Z,
           (0 <= i < 2)%Z ->
           dispatches_highlighted
             (_select_prompt i
                (_enter_prompt_select
                   (PromptWindow_init "helo wrld" _default_prompts)))).
Proof.
  split; [| split].
  - destruct (picker_dispatches_by_stored_order "helo wrld" _default_prompts)
      as (_ & _ & Hrow & _).
    destruct (Hrow 0%Z) as (Hsel & Hhigh & _).
    + simpl. lia.
    + split; [exact Hhigh | exact Hsel].
  - destruct (picker_dispatches_by_stored_order "helo wrld" mixed_case_prompts)
      as ((_ & _ & Hfix) & _ & _ & _ & Hagree & _).
    assert (E : keys (name_to_prompt
                        (PromptWindow_init "helo wrld" mixed_case_prompts))
                = sorted_prompt_names
                    (PromptWindow_init "helo wrld" mixed_case_prompts)).
    { apply Hfix. repeat constructor. }
    split; [exact E |]. apply Hagree; [exact E |]. simpl. lia.
  - intros Hall.
    destruct (picker_dispatches_by_stored_order "helo wrld" _default_prompts)
      as (_ & _ & _ & _ & _ & Honly).
    assert (Hd : distinct_templates
                   (name_to_prompt
                      (PromptWindow_init "helo wrld" _default_prompts))).
    { assert (Hne : prompt_text professional_tone <> prompt_text fix_grammar)
        by (vm_compute; discriminate).
      intros n1 n2 template H1 H2.
      change (name_to_prompt (PromptWindow_init "helo wrld" _default_prompts))
        with [("Professional Tone", prompt_text professional_tone);
              ("Fix Grammar", prompt_text fix_grammar)] in H1, H2.
      cbn [lookup] in H1, H2.
      destruct ("Professional Tone" =? n1)%string eqn:A1,
               ("Professional Tone" =? n2)%string eqn:A2.
      - apply String.eqb_eq in A1, A2. congruence.
      - destruct ("Fix Grammar" =? n2)%string; [| discriminate H2].
        elim Hne. congruence.
      - destruct ("Fix Grammar" =? n1)%string; [| discriminate H1].
        elim Hne. congruence.
      - destruct ("Fix Grammar" =? n1)%string eqn:B1; [| discriminate H1].
        destruct ("Fix Grammar" =? n2)%string eqn:B2; [| discriminate H2].
        apply String.eqb_eq in B1, B2. congruence. }
    assert (E := Honly Hd Hall). vm_compute in E. discriminate E.
Defined.

(** With the two built-in templates the first row shows Fix Grammar and
    submitting it dispatches the Professional Tone template, which is not
    the template of Fix Grammar. *)
Example defaults_first_row :
  let pw := _enter_prompt_select (PromptWindow_init "helo wrld" _default_prompts) in
  highlighted_name pw = Some "Fix Grammar"
  /\ selected_name pw = Some "Professional Tone"
  /\ _submit pw = Some (prompt_text professional_tone)
  /\ highlighted_template pw = Some (prompt_text fix_grammar)
  /\ ~ dispatches_highlighted pw.
Proof.
  cbv zeta. split; [reflexivity |]. split; [reflexivity |].
  split; [reflexivity |]. split; [reflexivity |].
  intros H. vm_compute in H. discriminate H.
Qed.

(** The order of the picker is the order of the lower-cased names: names
    stored lower case first, capital second are shown as stored. *)
Example mixed_case_rows :
  sorted_prompt_names (PromptWindow_init "helo wrld" mixed_case_prompts)
  = ["fix typos"; "Formal tone"].
Proof.
  reflexivity.
Qed.

(** ** The one-shot paste *)

Lemma paste_keystrokes_delivered (delivered : key_event -> bool)
      (log : list key_event) :
  (forall e, delivered e = true) ->
  paste_keystrokes delivered log = (log ++ paste_chord)%list.
Proof.
  intros H. unfold paste_keystrokes, send. rewrite !H.
  now rewrite <- !app_assoc.
Qed.

Lemma auto_paste_guarded (delivered : key_event -> bool)
      (pw : PromptWindow) (log : list key_event) :
  _paste_executed pw = true -> _auto_paste delivered (pw, log) = (pw, log).
Proof.
  intros H. unfold _auto_paste. now rewrite H.
Qed.

(** C10: on a window whose guard flag is unset, the first [_auto_paste]
    sets the flag and runs the keystrokes of one paste; a second call right
    after changes nothing, so when the controller delivers every event the
    two calls leave exactly one Ctrl down, v down, v up, Ctrl up; a window
    comes out of [__init__] with the flag unset. *)
Theorem auto_paste_pastes_once
        (delivered : key_event -> bool) (pw : PromptWindow)
        (log : list key_event) :
  _paste_executed pw = false ->
  let once := _auto_paste delivered (pw, log) in
  let twice := _auto_paste delivered once in
  _paste_executed (fst once) = true
  /\ snd once = paste_keystrokes delivered log
  /\ twice = once
  /\ ((forall e, delivered e = true) -> snd twice = (log ++ paste_chord)%list)
  /\ (forall captured prompts,
         _paste_executed (PromptWindow_init captured prompts) = false).
Proof.
  intros H once twice.
  assert (E : once
              = ({| captured_text := captured_text pw;
                    prompt_select_mode := prompt_select_mode pw;
                    name_to_prompt := name_to_prompt pw;
                    sorted_prompt_names := sorted_prompt_names pw;
                    selected_prompt_index := selected_prompt_index pw;
                    entry := entry pw;
                    _paste_executed := true |},
                 paste_keystrokes delivered log)).
  { unfold once, _auto_paste. now rewrite H. }
  assert (E2 : twice = once).
  { unfold twice. rewrite E. now apply auto_paste_guarded. }
  split; [now rewrite E | split; [now rewrite E | split; [exact E2 |]]].
  split; [| reflexivity].
  intros Hall. rewrite E2, E. now apply paste_keystrokes_delivered.
Qed.

Lemma auto_paste_pastes_once_witness :
  let pw := PromptWindow_init "helo wrld" _default_prompts in
  let once := _auto_paste (fun _ => true) (pw, []) in
  let twice := _auto_paste (fun _ => true) once in
  _paste_executed (fst once) = true
  /\ snd once = paste_keystrokes (fun _ => true) []
  /\ twice = once
  /\ ((forall e : key_event, (fun _ : key_event => true) e = true) ->
      snd twice = ([] ++ paste_chord)%list)
  /\ (forall captured prompts,
         _paste_executed (PromptWindow_init captured prompts) = false).
Proof.
  intros pw.
  apply (auto_paste_pastes_once (fun _ => true) pw []). reflexivity.
Defined.

(* ================================================================== *)
(** * Part III: further properties of the script *)
(* ================================================================== *)

(** ** The stores, whatever the files hold *)

Lemma load_config_total (w : world) :
  load_config w = (after_load_config w, inr (loaded_config w)).
Proof.
  unfold after_load_config, loaded_config.
  destruct (config_json w) as [| | v] eqn:E.
  - now apply load_config_missing.
  - now apply load_config_unreadable.
  - now apply load_config_holds.
Qed.

Lemma after_load_config_holds (w : world) :
  config_json (after_load_config w) = Holds (loaded_config w)
  /\ prompts_json (after_load_config w) = prompts_json w
  /\ sent (after_load_config w) = sent w
  /\ remote (after_load_config w) = remote w.
Proof.
  unfold after_load_config, loaded_config.
  destruct (config_json w) eqn:E; repeat split; assumption.
Qed.

(** X1: [load_config] does not look at what it reads: a settings file that
    parses is returned as it is, whatever JSON value it holds, and nothing
    is written.  Whenever [load_config] returns, the value returned is the
    default record with the placeholder if the file was missing or could
    not be read, the settings file holds exactly the value returned, a
    second [load_config] returns it again and changes nothing, and the
    template file and the network are untouched. *)
Theorem load_config_in_step_with_file (w : world) :
  (forall doc, config_json w = Holds doc -> load_config w = (w, inr doc))
  /\ (forall w' v,
         load_config w = (w', inr v) ->
         (config_json w = Missing \/ config_json w = Unreadable ->
          v = default_config)
         /\ config_json w' = Holds v
         /\ load_config w' = (w', inr v)
         /\ prompts_json w' = prompts_json w
         /\ sent w' = sent w).
Proof.
  split; [intros doc; apply load_config_holds |].
  intros w' v. rewrite load_config_total. intros [= <- <-].
  destruct (after_load_config_holds w) as (Hc & Hp & Hs & _).
  split.
  - unfold loaded_config. now intros [-> | ->].
  - split; [exact Hc |].
    split; [now apply load_config_holds |]. now split.
Qed.

Lemma load_config_in_step_with_file_witness :
  load_config sample_world = (sample_world, inr (config_data sample_window))
  /\ (let w := {| config_json := Unreadable; prompts_json := Missing;
                  sent := []; remote := offline |} in
      let w' := write_file CONFIG_PATH (Holds default_config) w in
      config_json w' = Holds default_config
      /\ load_config w' = (w', inr default_config)
      /\ prompts_json w' = prompts_json w).
Proof.
  split.
  - apply (proj1 (load_config_in_step_with_file sample_world)). reflexivity.
  - intros w w'.
    destruct (proj2 (load_config_in_step_with_file w) w' default_config eq_refl)
      as (_ & Hc & Hl & Hp & _).
    split; [exact Hc | split; [exact Hl | exact Hp]].
Defined.

(** X2: whatever [load_prompts] returns is a list.  A stored list is
    returned as it is, its entries not looked at, and nothing is written;
    whenever [load_prompts] returns on a file that holds no list, it
    returns the two defaults; and it leaves the settings file and the
    network alone. *)
Theorem load_prompts_returns_list (w : world) :
  (forall stored,
      prompts_json w = Holds (PList stored) ->
      load_prompts w = (w, inr (PList stored)))
  /\ (forall w' v,
         load_prompts w = (w', inr v) ->
         (exists items, v = PList items)
         /\ ((forall stored, prompts_json w <> Holds (PList stored)) ->
             v = prompts_value _default_prompts)
         /\ config_json w' = config_json w
         /\ sent w' = sent w).
Proof.
  split; [intros stored; apply load_prompts_list |].
  intros w' v Hload.
  destruct (prompts_json w) as [| | doc] eqn:E.
  - rewrite (load_prompts_missing w E) in Hload. injection Hload as <- <-.
    split; [now eexists | now repeat split].
  - rewrite (load_prompts_unreadable w E) in Hload. injection Hload as <- <-.
    split; [now eexists | now repeat split].
  - destruct (is_list doc) eqn:Hd.
    + destruct doc; try discriminate Hd.
      rewrite (load_prompts_list w items E) in Hload. injection Hload as <- <-.
      split; [now eexists |].
      split; [intros H; now elim (H items) | now split].
    + rewrite (load_prompts_not_list w doc E Hd) in Hload.
      injection Hload as <- <-.
      split; [now eexists | now repeat split].
Qed.

Lemma load_prompts_returns_list_witness :
  load_prompts sample_world
  = (sample_world, inr (PList (prompts sample_window)))
  /\ (let w := {| config_json := Missing; prompts_json := Unreadable;
                  sent := []; remote := offline |} in
      let w' := fst (load_prompts w) in
      (exists items, prompts_value _default_prompts = PList items)
      /\ config_json w' = config_json w
      /\ sent w' = sent w).
Proof.
  split.
  - apply (proj1 (load_prompts_returns_list sample_world)). reflexivity.
  - intros w w'.
    destruct (proj2 (load_prompts_returns_list w) w'
                (prompts_value _default_prompts) eq_refl)
      as (Hl & _ & Hc & Hs).
    split; [exact Hl | split; [exact Hc | exact Hs]].
Defined.

(** ** The API client, whatever the settings and the reply *)

Section ClientCases.

Variable fe : extended_formatter.
Variables captured instruction : string.

Lemma send_and_read (req : request) (w : world) :
  (response <- requests_post req ;;
   lift (raise_for_status response) ;;
   data <- lift (response_json response) ;;
   lift (first_choice_content data)) w
  = (with_request req w, reply_outcome (remote w req)).
Proof.
  unfold bind at 1. unfold requests_post, reply_outcome. fold (with_request req w).
  destruct (remote w req) as [| status body]; [reflexivity |].
  unfold bind at 1. unfold lift at 1. unfold raise_for_status.
  destruct ((400 <=? status) && (status <? 600))%Z; [reflexivity |].
  unfold bind at 1. unfold lift at 1. unfold response_json.
  now destruct body.
Qed.

Lemma call_unfold (w : world) :
  call_openrouter_api fe captured instruction w
  = match get (loaded_config w) "api_key" (PStr EmptyString) with
    | inl e => (after_load_config w, inl e)
    | inr key =>
        match strip_method key with
        | inl e => (after_load_config w, inl e)
        | inr k =>
            if usable_key k then
              let req := build_request k
                           (_combine_prompt fe captured instruction) in
              (with_request req (after_load_config w),
               reply_outcome (remote w req))
            else (after_load_config w, inl (RuntimeError ApiKeyMissing))
        end
    end.
Proof.
  unfold call_openrouter_api.
  unfold bind at 1. rewrite load_config_total.
  unfold bind at 1. unfold lift at 1.
  destruct (get (loaded_config w) "api_key" (PStr EmptyString)) as [e | key];
    [reflexivity |].
  unfold bind at 1. unfold lift at 1.
  destruct (strip_method key) as [e | k]; [reflexivity |].
  unfold usable_key.
  destruct ((k =? EmptyString) || (k =? placeholder)); cbn [negb].
  - reflexivity.
  - rewrite send_and_read.
    destruct (after_load_config_holds w) as (_ & _ & _ & Hr). now rewrite Hr.
Qed.

Lemma call_with_key (w : world) (k : string) :
  stored_key w = Some k ->
  usable_key k = true ->
  call_openrouter_api fe captured instruction w
  = (with_request
       (build_request k (_combine_prompt fe captured instruction))
       (after_load_config w),
     reply_outcome
       (remote w (build_request k (_combine_prompt fe captured instruction)))).
Proof.
  intros Hk Hu. rewrite call_unfold. unfold stored_key in Hk.
  destruct (get (loaded_config w) "api_key" (PStr EmptyString)) as [e | key];
    [discriminate Hk |].
  destruct key; try discriminate Hk.
  injection Hk as <-. cbn [strip_method]. now rewrite Hu.
Qed.

Lemma call_without_key (w : world) :
  (forall k, stored_key w = Some k -> usable_key k = false) ->
  exists e,
    call_openrouter_api fe captured instruction w = (after_load_config w, inl e).
Proof.
  intros H. rewrite call_unfold. unfold stored_key in H.
  destruct (get (loaded_config w) "api_key" (PStr EmptyString)) as [e | key];
    [now exists e |].
  destruct key; cbn [strip_method]; try (now eexists).
  rewrite (H _ eq_refl). now eexists.
Qed.

End ClientCases.

Lemma sent_grows (r : request) (l : list request) : (l ++ [r])%list <> l.
Proof.
  intros H. apply (f_equal (@length request)) in H.
  rewrite length_app in H. simpl in H. lia.
Qed.

(** X3: [call_openrouter_api] sends a request exactly when the settings
    give a credential that is a string, not blank and not the placeholder
    once trimmed; it then sends one request and no more, whatever the
    reply: to the fixed endpoint, for the fixed model, with the trimmed
    credential as bearer and the resolver's output as the only message. *)
Theorem one_request_iff_usable_key
        (fe : extended_formatter) (captured instruction : string) (w : world) :
  let w' := fst (call_openrouter_api fe captured instruction w) in
  (sent w' <> sent w <->
   exists k, stored_key w = Some k /\ usable_key k = true)
  /\ (forall k,
         stored_key w = Some k ->
         usable_key k = true ->
         sent w'
         = (sent w
            ++ [ {| url := endpoint;
                    authorization := "Bearer " ++ k;
                    model := model_id;
                    user_content := _combine_prompt fe captured instruction |} ]
           )%list).
Proof.
  intros w'.
  destruct (after_load_config_holds w) as (_ & _ & Hs & _).
  assert (Hkey : forall k, stored_key w = Some k -> usable_key k = true ->
                   sent w'
                   = (sent w
                      ++ [build_request k
                            (_combine_prompt fe captured instruction)])%list).
  { intros k Hk Hu. unfold w'.
    rewrite (call_with_key fe captured instruction w k Hk Hu).
    unfold with_request. cbn [fst sent]. now rewrite Hs. }
  split; [| exact Hkey].
  split.
  - intros Hneq. destruct (stored_key w) as [k |] eqn:Hk.
    + destruct (usable_key k) eqn:Hu; [now exists k |].
      exfalso. apply Hneq. unfold w'.
      destruct (call_without_key fe captured instruction w) as (e & He).
      { intros k' Hk'. rewrite Hk in Hk'. now injection Hk' as <-. }
      now rewrite He.
    + exfalso. apply Hneq. unfold w'.
      destruct (call_without_key fe captured instruction w) as (e & He).
      { intros k' Hk'. rewrite Hk in Hk'. discriminate Hk'. }
      now rewrite He.
  - intros (k & Hk & Hu). rewrite (Hkey k Hk Hu). apply sent_grows.
Qed.

(** X4: with a usable credential, a failure of the transport is what
    [call_openrouter_api] raises: a connection error when there is no
    response, the HTTP error of a status from 400 to 599 whatever body
    comes with it, a decoding error when the body of another status is
    not JSON. *)
Theorem transport_errors_propagate
        (fe : extended_formatter) (captured instruction : string)
        (w : world) (k : string) :
  stored_key w = Some k ->
  usable_key k = true ->
  let req := build_request k (_combine_prompt fe captured instruction) in
  let outcome := snd (call_openrouter_api fe captured instruction w) in
  (remote w req = NoReply -> outcome = inl ConnectionError)
  /\ (forall status body,
         remote w req = Reply status body ->
         (400 <= status < 600)%Z ->
         outcome = inl (HTTPError status))
  /\ (forall status,
         remote w req = Reply status None ->
         ~ (400 <= status < 600)%Z ->
         outcome = inl JSONDecodeError).
Proof.
  intros Hk Hu req outcome. unfold outcome.
  rewrite (call_with_key fe captured instruction w k Hk Hu). cbn [snd].
  fold req. split; [| split].
  - intros ->. reflexivity.
  - intros status body -> [Hlo Hhi]. unfold reply_outcome.
    apply Z.leb_le in Hlo. apply Z.ltb_lt in Hhi. now rewrite Hlo, Hhi.
  - intros status -> Hst. unfold reply_outcome.
    destruct ((400 <=? status) && (status <? 600))%Z eqn:E; [| reflexivity].
    apply andb_true_iff in E as [Hlo Hhi].
    apply Z.leb_le in Hlo. apply Z.ltb_lt in Hhi. elim Hst. now split.
Qed.

Lemma transport_errors_propagate_witness :
  snd (call_openrouter_api raising "helo wrld" "Fix: {text}"
         (answering (Reply 503 (Some hello_body))))
  = inl (HTTPError 503).
Proof.
  destruct (transport_errors_propagate raising "helo wrld" "Fix: {text}"
              (answering (Reply 503 (Some hello_body))) "sk-or-demo"
              eq_refl eq_refl) as (_ & H & _).
  apply (H 503%Z (Some hello_body)); [reflexivity | lia].
Defined.

(** X5: whatever the settings and the reply, a value that
    [call_openrouter_api] returns is truthy and is the message content of
    the first candidate of a JSON body that came with a status outside
    400-599, in answer to the one request sent with the stored
    credential: nothing else is ever returned. *)
Theorem returns_only_first_content
        (fe : extended_formatter) (captured instruction : string)
        (w : world) (v : pyval) :
  snd (call_openrouter_api fe captured instruction w) = inr v ->
  truthy v = true
  /\ exists k status data,
      stored_key w = Some k
      /\ usable_key k = true
      /\ remote w (build_request k (_combine_prompt fe captured instruction))
         = Reply status (Some data)
      /\ ~ (400 <= status < 600)%Z
      /\ first_candidate_content data = Some v.
Proof.
  intros H.
  destruct (stored_key w) as [k |] eqn:Hk.
  - destruct (usable_key k) eqn:Hu.
    + rewrite (call_with_key fe captured instruction w k Hk Hu) in H.
      cbn [snd] in H. unfold reply_outcome in H.
      destruct (remote w _) as [| status body] eqn:Hr; [discriminate H |].
      destruct ((400 <=? status) && (status <? 600))%Z eqn:E;
        [discriminate H |].
      destruct body as [data |]; [| discriminate H].
      destruct (first_choice_content_verbatim data v H) as (Hc & Ht).
      split; [exact Ht |]. exists k, status, data. repeat split; trivial.
      intros [Hlo Hhi]. apply Z.leb_le in Hlo. apply Z.ltb_lt in Hhi.
      now rewrite Hlo, Hhi in E.
    + destruct (call_without_key fe captured instruction w) as (e & He).
      { intros k' Hk'. rewrite Hk in Hk'. now injection Hk' as <-. }
      rewrite He in H. discriminate H.
  - destruct (call_without_key fe captured instruction w) as (e & He).
    { intros k' Hk'. rewrite Hk in Hk'. discriminate Hk'. }
    rewrite He in H. discriminate H.
Qed.

Lemma returns_only_first_content_witness :
  truthy (PStr "Hello") = true
  /\ exists k status data,
      stored_key (answering (Reply 200 (Some hello_body))) = Some k
      /\ usable_key k = true
      /\ remote (answering (Reply 200 (Some hello_body)))
           (build_request k (_combine_prompt raising "helo wrld" "Fix: {text}"))
         = Reply status (Some data)
      /\ ~ (400 <= status < 600)%Z
      /\ first_candidate_content data = Some (PStr "Hello").
Proof.
  apply (returns_only_first_content raising "helo wrld" "Fix: {text}"
           (answering (Reply 200 (Some hello_body))) (PStr "Hello")).
  reflexivity.
Defined.

(** X6: [call_openrouter_api] never touches the template file, and the
    only thing it does to the settings file is what [load_config] does:
    afterwards the file holds the record the call worked with, which is
    the document it held before when there was one. *)
Theorem call_leaves_files
        (fe : extended_formatter) (captured instruction : string) (w : world) :
  let w' := fst (call_openrouter_api fe captured instruction w) in
  prompts_json w' = prompts_json w
  /\ config_json w' = Holds (loaded_config w)
  /\ (forall doc, config_json w = Holds doc -> config_json w' = Holds doc).
Proof.
  intros w'.
  destruct (after_load_config_holds w) as (Hc & Hp & _ & _).
  assert (E : prompts_json w' = prompts_json w
              /\ config_json w' = Holds (loaded_config w)).
  { unfold w'. rewrite call_unfold.
    destruct (get (loaded_config w) "api_key" (PStr EmptyString)) as [e | key];
      [now split |].
    destruct (strip_method key) as [e | k]; [now split |].
    destruct (usable_key k); now split. }
  destruct E as (E1 & E2). split; [exact E1 | split; [exact E2 |]].
  intros doc Hdoc. rewrite E2. unfold loaded_config. now rewrite Hdoc.
Qed.

(** ** The resolver at its edges *)

Lemma all_space_append (a b : string) :
  all_space a = true -> all_space b = true -> all_space (a ++ b) = true.
Proof.
  induction a as [| c a IH]; simpl; [trivial |].
  intros Ha Hb. apply andb_true_iff in Ha as [Hc Ha]. now rewrite Hc, IH.
Qed.

Lemma lstrip_of_all_space (ws : string) :
  all_space ws = true -> Str.lstrip ws = EmptyString.
Proof.
  intros H. rewrite <- (append_empty_r ws). now rewrite lstrip_all_space.
Qed.

Lemma strip_empty_all_space (s : string) :
  Str.strip s = EmptyString -> all_space s = true.
Proof.
  intros H.
  destruct (lstrip_split s) as (ws1 & Hws1 & E1).
  destruct (rstrip_split (Str.lstrip s)) as (ws2 & Hws2 & E2).
  fold (Str.strip s) in E2. rewrite H in E2. simpl in E2.
  rewrite E1, E2. now apply all_space_append.
Qed.

Lemma all_space_no_marker (s : string) :
  all_space s = true -> Str.contains marker s = false.
Proof.
  induction s as [| c s IH]; [reflexivity |].
  intros H. simpl in H. apply andb_true_iff in H as [Hc Hs].
  rewrite contains_unfold, (IH Hs).
  change (prefix marker (String c s))
    with (if ascii_dec "{" c then prefix "text}" s else false).
  destruct (ascii_dec "{" c) as [<- | _]; [discriminate Hc | reflexivity].
Qed.

(** X7: when one side is blank.  For an instruction that is empty or all
    whitespace the output is the trimmed captured text and the directive;
    for an instruction without the marker and a captured text that is
    empty or all whitespace it is the trimmed instruction and the
    directive: no blank line is left over in either case. *)
Theorem blank_side_leaves_the_other
        (fe : extended_formatter) (captured instruction : string) :
  (Str.strip instruction = EmptyString ->
   _combine_prompt fe captured instruction
   = Str.strip captured ++ strict_suffix)
  /\ (Str.contains marker instruction = false ->
      all_space captured = true ->
      _combine_prompt fe captured instruction
      = Str.strip instruction ++ strict_suffix).
Proof.
  split.
  - intros H.
    rewrite (combine_plain fe _ _
               (all_space_no_marker _ (strip_empty_all_space _ H))).
    rewrite H.
    change (EmptyString ++ blank_line ++ captured)
      with (blank_line ++ captured).
    unfold Str.strip at 1.
    now rewrite (lstrip_all_space blank_line captured eq_refl).
  - intros Hm Hc. rewrite (combine_plain fe _ _ Hm). f_equal.
    assert (Hws : all_space (blank_line ++ captured) = true)
      by now apply all_space_append.
    destruct (string_dec (Str.strip instruction) EmptyString) as [E | Hne].
    + rewrite E.
      change (EmptyString ++ blank_line ++ captured)
        with (blank_line ++ captured).
      unfold Str.strip at 1.
      now rewrite (lstrip_of_all_space _ Hws).
    + unfold Str.strip at 1.
      rewrite (lstrip_fixed _ (starts_nonspace_append _ _ (strip_starts _ Hne))).
      rewrite rstrip_append, (rstrip_all_space _ Hws). apply rstrip_strip.
Qed.

Lemma blank_side_leaves_the_other_witness :
  _combine_prompt raising " helo wrld " "   " = "helo wrld" ++ strict_suffix
  /\ _combine_prompt raising "  " " Fix this " = "Fix this" ++ strict_suffix.
Proof.
  split.
  - apply (proj1 (blank_side_leaves_the_other raising " helo wrld " "   ")).
    reflexivity.
  - apply (proj2 (blank_side_leaves_the_other raising "  " " Fix this "));
      reflexivity.
Defined.

Section FormatRaises.

Variable fe : extended_formatter.

Lemma format_source_append (value : string) (ps : list piece) (rest : string) :
  forallb well_formed_piece ps = true ->
  Str.format fe value (source ps ++ rest)
  = option_map (append (expansion value ps)) (Str.format fe value rest).
Proof.
  induction ps as [| p ps IH]; intros H.
  - simpl. now destruct (Str.format fe value rest).
  - simpl in H. apply andb_true_iff in H as [Hp Hps].
    specialize (IH Hps). destruct p; cbn [source expansion].
    + simpl in Hp. apply negb_true_iff in Hp.
      change (String c (source ps) ++ rest) with (String c (source ps ++ rest)).
      rewrite (format_char fe _ _ _ Hp), IH.
      now destruct (Str.format fe value rest).
    + rewrite append_assoc, format_open, IH.
      now destruct (Str.format fe value rest).
    + rewrite append_assoc, format_close, IH.
      now destruct (Str.format fe value rest).
    + rewrite append_assoc, format_marker, IH.
      destruct (Str.format fe value rest); simpl; [| reflexivity].
      now rewrite append_assoc.
Qed.

Lemma arg_name_plain (name : string) :
  plain_name name = true -> Str.arg_name name = name.
Proof.
  induction name as [| c name IH]; [reflexivity |].
  simpl. intros H. apply andb_true_iff in H as [Hc Hn].
  unfold plain_name_char in Hc. apply negb_true_iff in Hc.
  repeat (apply orb_false_iff in Hc as [Hc ?]).
  replace ((c =? ".")%char || (c =? "[")%char) with false
    by (symmetry; apply orb_false_iff; now split).
  now rewrite IH.
Qed.

Lemma in_field_name_plain (value name acc rest : string) :
  plain_name name = true ->
  Str.in_field_name fe value acc false (name ++ String "}" rest)
  = Str.emit_field fe (acc ++ name) None EmptyString value
      (Str.format fe value rest).
Proof.
  revert acc. induction name as [| c name IH]; intros acc H.
  - simpl. now rewrite append_empty_r.
  - simpl in H. apply andb_true_iff in H as [Hc Hn].
    unfold plain_name_char in Hc. apply negb_true_iff in Hc.
    repeat (apply orb_false_iff in Hc as [Hc ?]).
    change (String c name ++ String "}" rest)
      with (String c (name ++ String "}" rest)).
    cbn [Str.in_field_name].
    replace (c =? "{")%char with false by easy.
    replace (c =? "[")%char with false by easy.
    replace (c =? "}")%char with false by easy.
    replace (c =? ":")%char with false by easy.
    replace (c =? "!")%char with false by easy.
    rewrite (IH _ Hn). unfold Str.snoc. now rewrite append_assoc.
Qed.

Lemma format_other_field (value name rest : string) :
  plain_name name = true ->
  name <> "text" ->
  Str.format fe value ("{" ++ name ++ String "}" rest) = None.
Proof.
  intros Hp Hn.
  assert (E : Str.format fe value ("{" ++ name ++ String "}" rest)
              = Str.in_field_name fe value EmptyString false
                  (name ++ String "}" rest)).
  { destruct name as [| c name]; [reflexivity |].
    simpl in Hp. apply andb_true_iff in Hp as [Hc _].
    unfold plain_name_char in Hc. apply negb_true_iff in Hc.
    repeat (apply orb_false_iff in Hc as [Hc ?]).
    change ("{" ++ String c name ++ String "}" rest)
      with (String "{"%char (String c (name ++ String "}" rest))).
    cbn [Str.format]. replace (c =? "{")%char with false by easy.
    reflexivity. }
  rewrite E, (in_field_name_plain _ _ _ _ Hp).
  unfold Str.emit_field, Str.render_field. simpl (EmptyString ++ name).
  rewrite (arg_name_plain _ Hp).
  apply String.eqb_neq in Hn. now rewrite Hn.
Qed.

Lemma format_stray_close (value tail : string) :
  prefix "}" tail = false ->
  Str.format fe value (String "}" tail) = None.
Proof.
  intros H. destruct tail as [| c tail]; [reflexivity |].
  simpl in H. cbn [Str.format]. simpl.
  destruct (ascii_dec "}" c) as [<- | N]; [now destruct tail |].
  replace (c =? "}")%char with false; [reflexivity |].
  symmetry. apply Ascii.eqb_neq. congruence.
Qed.

End FormatRaises.

(** X8: a replacement field of another name makes the resolver fall back.
    When an instruction that contains the marker has, after a part written
    with ordinary characters, doubled braces and markers, a field in
    braces whose name is plain and is not [text] (a word, a number,
    nothing at all), formatting raises and the output is the instruction
    as typed, a blank line, the captured text and the directive. *)
Theorem other_field_falls_back
        (fe : extended_formatter) (captured : string)
        (ps : list piece) (name tail : string) :
  forallb well_formed_piece ps = true ->
  plain_name name = true ->
  name <> "text" ->
  let instruction := source ps ++ "{" ++ name ++ "}" ++ tail in
  Str.contains marker instruction = true ->
  _combine_prompt fe captured instruction
  = instruction ++ blank_line ++ captured ++ strict_suffix.
Proof.
  intros Hwf Hp Hn instruction Hm.
  apply (combine_fallback fe _ _ Hm). unfold instruction.
  rewrite (format_source_append fe _ _ _ Hwf).
  change ("{" ++ name ++ "}" ++ tail) with ("{" ++ name ++ String "}" tail).
  now rewrite (format_other_field fe _ _ _ Hp Hn).
Qed.

Lemma other_field_falls_back_witness :
  _combine_prompt raising "helo wrld" "{text} as {0} says"
  = "{text} as {0} says" ++ blank_line ++ "helo wrld" ++ strict_suffix.
Proof.
  apply (other_field_falls_back raising "helo wrld"
           [Field; Chr " "; Chr "a"; Chr "s"; Chr " "] "0" " says");
    [reflexivity | reflexivity | discriminate | reflexivity].
Defined.

(** X9: a brace that is not doubled makes the resolver fall back.  When an
    instruction that contains the marker has, after a part written with
    ordinary characters, doubled braces and markers, a closing brace not
    followed by a second one, or ends there with an opening brace,
    formatting raises and the output is the instruction as typed, a blank
    line, the captured text and the directive. *)
Theorem single_brace_falls_back
        (fe : extended_formatter) (captured : string) (ps : list piece) :
  forallb well_formed_piece ps = true ->
  (forall tail,
      prefix "}" tail = false ->
      Str.contains marker (source ps ++ "}" ++ tail) = true ->
      _combine_prompt fe captured (source ps ++ "}" ++ tail)
      = (source ps ++ "}" ++ tail) ++ blank_line ++ captured ++ strict_suffix)
  /\ (Str.contains marker (source ps ++ "{") = true ->
      _combine_prompt fe captured (source ps ++ "{")
      = (source ps ++ "{") ++ blank_line ++ captured ++ strict_suffix).
Proof.
  intros Hwf. split.
  - intros tail Ht Hm. apply (combine_fallback fe _ _ Hm).
    rewrite (format_source_append fe _ _ _ Hwf).
    change ("}" ++ tail) with (String "}"%char tail).
    now rewrite (format_stray_close fe _ _ Ht).
  - intros Hm. apply (combine_fallback fe _ _ Hm).
    now rewrite (format_source_append fe _ _ _ Hwf).
Qed.

Lemma single_brace_falls_back_witness :
  _combine_prompt raising "helo wrld" "{text} :-}"
  = "{text} :-}" ++ blank_line ++ "helo wrld" ++ strict_suffix
  /\ _combine_prompt raising "helo wrld" "{text} {"
     = "{text} {" ++ blank_line ++ "helo wrld" ++ strict_suffix.
Proof.
  split.
  - apply (proj1 (single_brace_falls_back raising "helo wrld"
                    [Field; Chr " "; Chr ":"; Chr "-"] eq_refl)
             EmptyString); reflexivity.
  - apply (proj2 (single_brace_falls_back raising "helo wrld"
                    [Field; Chr " "] eq_refl)); reflexivity.
Defined.

(** ** The editor and the settings window *)

Lemma strip_idempotent (s : string) : Str.strip (Str.strip s) = Str.strip s.
Proof.
  destruct (string_dec (Str.strip s) EmptyString) as [E | Hne].
  - now rewrite E.
  - unfold Str.strip at 1.
    rewrite (lstrip_fixed _ (strip_starts _ Hne)). apply rstrip_strip.
Qed.

Lemma prefix_empty (s : string) : prefix EmptyString s = true.
Proof.
  now destruct s.
Qed.

Lemma prefix_cons (a c : ascii) (p s : string) :
  prefix (String a p) (String c s)
  = if ascii_dec a c then prefix p s else false.
Proof.
  reflexivity.
Qed.

Lemma prefix_rstrip (p s : string) :
  no_space p = true -> prefix p (Str.rstrip s) = prefix p s.
Proof.
  revert s. induction p as [| a p IH]; intros s H.
  - now rewrite !prefix_empty.
  - simpl in H. apply andb_true_iff in H as [Ha Hp].
    apply negb_true_iff in Ha.
    destruct s as [| c s]; [reflexivity |].
    rewrite prefix_cons. specialize (IH s Hp). simpl.
    destruct (Str.rstrip s) as [| d r] eqn:Er.
    + destruct (ascii_dec a c) as [<- | N].
      * rewrite Ha, prefix_cons.
        destruct (ascii_dec a a) as [_ | N]; [exact IH | now elim N].
      * destruct (Str.isspace c); [now destruct p |].
        rewrite prefix_cons. now destruct (ascii_dec a c).
    + rewrite prefix_cons. now destruct (ascii_dec a c).
Qed.

Lemma contains_rstrip (p s : string) :
  no_space p = true -> p <> EmptyString ->
  Str.contains p (Str.rstrip s) = Str.contains p s.
Proof.
  intros Hp Hne. induction s as [| c s IH]; [reflexivity |].
  rewrite (contains_unfold p (String c s)), <- IH.
  rewrite <- (prefix_rstrip p (String c s) Hp).
  simpl. destruct (Str.rstrip s) as [| d r].
  - destruct (Str.isspace c).
    + destruct p; [now elim Hne | reflexivity].
    + now rewrite (contains_unfold p (String c EmptyString)).
  - now rewrite (contains_unfold p (String c (String d r))).
Qed.

Lemma contains_lstrip (p s : string) :
  no_space p = true -> p <> EmptyString ->
  Str.contains p (Str.lstrip s) = Str.contains p s.
Proof.
  intros Hp Hne. induction s as [| c s IH]; [reflexivity |].
  simpl Str.lstrip. destruct (Str.isspace c) eqn:Hc; [| reflexivity].
  rewrite IH, (contains_unfold p (String c s)).
  destruct p as [| a p]; [now elim Hne |].
  rewrite prefix_cons. simpl in Hp. apply andb_true_iff in Hp as [Ha _].
  destruct (ascii_dec a c) as [<- | _]; [| reflexivity].
  rewrite Hc in Ha. discriminate Ha.
Qed.

Lemma contains_marker_strip (s : string) :
  Str.contains marker (Str.strip s) = Str.contains marker s.
Proof.
  unfold Str.strip.
  rewrite contains_rstrip, contains_lstrip; (reflexivity || discriminate).
Qed.

Lemma saved_prompt_has_marker (typed : string) :
  Str.contains marker (save_and_close_prompt_val typed) = true.
Proof.
  unfold save_and_close_prompt_val.
  destruct (Str.contains marker (Str.strip typed)) eqn:Hm; cbn [negb].
  - exact Hm.
  - apply occurs_contains. rewrite <- append_assoc.
    apply (strip_append_keeps (Str.rstrip (Str.strip typed) ++ blank_line) marker).
Qed.

Lemma saved_prompt_trimmed (typed : string) :
  Str.strip (save_and_close_prompt_val typed) = save_and_close_prompt_val typed.
Proof.
  unfold save_and_close_prompt_val.
  destruct (negb (Str.contains marker (Str.strip typed)));
    apply strip_idempotent.
Qed.

(** X10: what the editor stores is stable.  The stored template has no
    whitespace at either end; a typed text that holds the marker is stored
    trimmed and otherwise unchanged; and opening a stored template and
    saving it as it is stores the same text again: no second marker is
    ever appended. *)
Theorem stored_prompt_is_stable (typed : string) :
  let stored := save_and_close_prompt_val typed in
  save_and_close_prompt_val stored = stored
  /\ Str.strip stored = stored
  /\ (Str.contains marker typed = true -> stored = Str.strip typed).
Proof.
  intros stored.
  assert (Ht : Str.strip stored = stored) by apply saved_prompt_trimmed.
  split; [| split; [exact Ht |]].
  - unfold save_and_close_prompt_val at 1. rewrite Ht.
    unfold stored. now rewrite saved_prompt_has_marker.
  - intros Hm. unfold stored, save_and_close_prompt_val.
    now rewrite contains_marker_strip, Hm.
Qed.

Lemma remove_at_length {A : Type} (n : nat) (l : list A) :
  n < length l -> S (length (remove_at n l)) = length l.
Proof.
  revert n. induction l as [| x l IH]; intros n H; simpl in *; [lia |].
  destruct n as [| n]; [reflexivity |]. simpl. rewrite IH; [reflexivity | lia].
Qed.

Lemma remove_at_before {A : Type} (n j : nat) (l : list A) :
  j < n -> nth_error (remove_at n l) j = nth_error l j.
Proof.
  revert n j. induction l as [| x l IH]; intros n j H; [now destruct n |].
  destruct n as [| n]; [lia |]. simpl.
  destruct j as [| j]; [reflexivity |]. simpl. apply IH. lia.
Qed.

Lemma remove_at_after {A : Type} (n j : nat) (l : list A) :
  n <= j -> nth_error (remove_at n l) j = nth_error l (S j).
Proof.
  revert n j. induction l as [| x l IH]; intros n j H.
  - destruct n; now destruct j.
  - destruct n as [| n]; [reflexivity |].
    destruct j as [| j]; [lia |]. simpl. apply IH. lia.
Qed.

Lemma replace_at_length {A : Type} (n : nat) (x : A) (l : list A) :
  length (replace_at n x l) = length l.
Proof.
  revert n. induction l as [| y l IH]; intros n; [now destruct n |].
  destruct n; simpl; [reflexivity | now rewrite IH].
Qed.

Lemma replace_at_same {A : Type} (n : nat) (x : A) (l : list A) :
  n < length l -> nth_error (replace_at n x l) n = Some x.
Proof.
  revert n. induction l as [| y l IH]; intros n H; simpl in *; [lia |].
  destruct n; simpl; [reflexivity | apply IH; lia].
Qed.

Lemma replace_at_other {A : Type} (n j : nat) (x : A) (l : list A) :
  j <> n -> nth_error (replace_at n x l) j = nth_error l j.
Proof.
  revert n j. induction l as [| y l IH]; intros n j H; [now destruct n |].
  destruct n, j; simpl; try reflexivity; [lia | apply IH; lia].
Qed.

Lemma load_after_save_prompts (l : list pyval) (w : world) :
  load_prompts (write_file PROMPTS_PATH (Holds (PList l)) w)
  = (write_file PROMPTS_PATH (Holds (PList l)) w, inr (PList l)).
Proof.
  now apply load_prompts_list.
Qed.

(** X11: [_delete_prompt] with an index outside the list changes nothing
    and writes nothing; with an index inside it removes that one template,
    keeps the others in their order, writes the shortened list to the
    template file, so that [load_prompts] then returns it, and leaves the
    settings alone. *)
Theorem delete_prompt_removes_one
        (index : Z) (mw : ManagementWindow) (w : world) :
  (~ (0 <= index < Z.of_nat (length (prompts mw)))%Z ->
   _delete_prompt index mw w = (w, inr mw))
  /\ ((0 <= index < Z.of_nat (length (prompts mw)))%Z ->
      exists mw' w',
        _delete_prompt index mw w = (w', inr mw')
        /\ S (length (prompts mw')) = length (prompts mw)
        /\ (forall j, j < Z.to_nat index ->
              nth_error (prompts mw') j = nth_error (prompts mw) j)
        /\ (forall j, Z.to_nat index <= j ->
              nth_error (prompts mw') j = nth_error (prompts mw) (S j))
        /\ load_prompts w' = (w', inr (PList (prompts mw')))
        /\ config_data mw' = config_data mw
        /\ config_json w' = config_json w).
Proof.
  unfold _delete_prompt. split.
  - intros H.
    destruct ((0 <=? index) && (index <? Z.of_nat (length (prompts mw))))%Z
      eqn:E; [| reflexivity].
    apply andb_true_iff in E as [Hlo Hhi].
    apply Z.leb_le in Hlo. apply Z.ltb_lt in Hhi. elim H. now split.
  - intros [Hlo Hhi].
    assert (Hn : Z.to_nat index < length (prompts mw)) by lia.
    apply Z.leb_le in Hlo. apply Z.ltb_lt in Hhi. rewrite Hlo, Hhi. cbn [andb].
    eexists. eexists. split; [reflexivity |]. cbn [prompts config_data].
    split; [now apply remove_at_length |].
    split; [intros j Hj; now apply remove_at_before |].
    split; [intros j Hj; now apply remove_at_after |].
    split; [apply load_after_save_prompts |]. now split.
Qed.

Lemma delete_prompt_removes_one_witness :
  _delete_prompt 7 sample_window sample_world
  = (sample_world, inr sample_window)
  /\ exists mw' w',
      _delete_prompt 0 sample_window sample_world = (w', inr mw')
      /\ S (length (prompts mw')) = length (prompts sample_window)
      /\ (forall j, j < Z.to_nat 0 ->
            nth_error (prompts mw') j = nth_error (prompts sample_window) j)
      /\ (forall j, Z.to_nat 0 <= j ->
            nth_error (prompts mw') j = nth_error (prompts sample_window) (S j))
      /\ load_prompts w' = (w', inr (PList (prompts mw')))
      /\ config_data mw' = config_data sample_window
      /\ config_json w' = config_json sample_world.
Proof.
  split.
  - apply (proj1 (delete_prompt_removes_one 7 sample_window sample_world)).
    simpl. lia.
  - apply (proj2 (delete_prompt_removes_one 0 sample_window sample_world)).
    simpl. lia.
Defined.

Lemma stored_name_not_empty (name_typed : string) :
  stored_name name_typed <> EmptyString.
Proof.
  unfold stored_name.
  destruct (Str.strip name_typed =? EmptyString) eqn:E; [discriminate |].
  now apply String.eqb_neq.
Qed.

(** X12: saving a new template.  When [save_and_close] of the editor opened
    without an index returns, it has put one entry after the templates of
    the window, which all stay as they were; the name of the entry is the
    trimmed text of the name box, or Untitled Prompt when that is blank,
    so it is never empty; its template contains the marker; the template
    file holds the list of the window, so that [load_prompts] returns it;
    and the settings file is as it was. *)
Theorem save_new_prompt_appends
        (name_typed prompt_typed : string) (mw mw' : ManagementWindow)
        (w w' : world) :
  save_and_close None name_typed prompt_typed mw w = (w', inr mw') ->
  prompts mw' = (prompts mw ++ [stored_entry name_typed prompt_typed])%list
  /\ get (stored_entry name_typed prompt_typed) "name" PNone
     = inr (PStr (stored_name name_typed))
  /\ stored_name name_typed <> EmptyString
  /\ (Str.strip name_typed <> EmptyString ->
      stored_name name_typed = Str.strip name_typed)
  /\ (exists t,
         get (stored_entry name_typed prompt_typed) "prompt" PNone
         = inr (PStr t)
         /\ Str.contains marker t = true)
  /\ prompts_json w' = Holds (PList (prompts mw'))
  /\ load_prompts w' = (w', inr (PList (prompts mw')))
  /\ config_data mw' = config_data mw
  /\ config_json w' = config_json w.
Proof.
  intros H.
  assert (E : save_and_close None name_typed prompt_typed mw w
              = (write_file PROMPTS_PATH
                   (Holds (PList (prompts mw
                                  ++ [stored_entry name_typed prompt_typed])))
                   w,
                 inr {| config_data := config_data mw;
                        prompts := (prompts mw
                                    ++ [stored_entry name_typed prompt_typed])
                                   %list |}))
    by reflexivity.
  rewrite E in H. injection H as <- <-. cbn [prompts config_data].
  split; [reflexivity |]. split; [reflexivity |].
  split; [apply stored_name_not_empty |].
  split.
  - intros H. unfold stored_name. apply String.eqb_neq in H. now rewrite H.
  - split.
    + exists (save_and_close_prompt_val prompt_typed).
      split; [reflexivity | apply saved_prompt_has_marker].
    + split; [reflexivity |].
      split; [apply load_after_save_prompts | now split].
Qed.

Lemma save_new_prompt_appends_witness :
  exists mw' w',
    save_and_close None "  " "Shorten this" sample_window sample_world
    = (w', inr mw')
    /\ prompts mw'
       = (prompts sample_window ++ [stored_entry "  " "Shorten this"])%list
    /\ stored_name "  " = "Untitled Prompt"
    /\ load_prompts w' = (w', inr (PList (prompts mw'))).
Proof.
  eexists. eexists. split; [reflexivity |].
  destruct (save_new_prompt_appends "  " "Shorten this" sample_window _
              sample_world _ eq_refl)
    as (Hp & _ & _ & _ & _ & _ & Hl & _).
  split; [exact Hp |]. split; [reflexivity | exact Hl].
Defined.

(** X13: saving an edited template.  With an index inside the list,
    [save_and_close] replaces that one entry and keeps the number and the
    order of the others, and the template file then holds the list of the
    window; with an index past the end it raises IndexError and nothing is
    written. *)
Theorem save_edited_prompt_replaces
        (i : Z) (name_typed prompt_typed : string)
        (mw : ManagementWindow) (w : world) :
  ((0 <= i < Z.of_nat (length (prompts mw)))%Z ->
   exists mw' w',
     save_and_close (Some i) name_typed prompt_typed mw w = (w', inr mw')
     /\ length (prompts mw') = length (prompts mw)
     /\ nth_error (prompts mw') (Z.to_nat i)
        = Some (stored_entry name_typed prompt_typed)
     /\ (forall j, j <> Z.to_nat i ->
           nth_error (prompts mw') j = nth_error (prompts mw) j)
     /\ load_prompts w' = (w', inr (PList (prompts mw')))
     /\ config_json w' = config_json w)
  /\ ((Z.of_nat (length (prompts mw)) <= i)%Z ->
      save_and_close (Some i) name_typed prompt_typed mw w
      = (w, inl IndexError)).
Proof.
  unfold save_and_close, list_setitem. split.
  - intros [Hlo Hhi].
    assert (Hn : Z.to_nat i < length (prompts mw)) by lia.
    apply Z.leb_le in Hlo. apply Z.ltb_lt in Hhi. rewrite Hlo, Hhi. cbn [andb].
    eexists. eexists. split; [reflexivity |]. cbn [prompts].
    split; [apply replace_at_length |].
    split; [now apply replace_at_same |].
    split; [intros j Hj; now apply replace_at_other |].
    split; [apply load_after_save_prompts | reflexivity].
  - intros H.
    replace (i <? Z.of_nat (length (prompts mw)))%Z with false
      by (symmetry; apply Z.ltb_ge; lia).
    replace (i <? 0)%Z with false by (symmetry; apply Z.ltb_ge; lia).
    now rewrite !andb_false_r.
Qed.

Lemma save_edited_prompt_replaces_witness :
  (exists mw' w',
      save_and_close (Some 1%Z) " Shorter " "Shorten this" sample_window
        sample_world = (w', inr mw')
      /\ length (prompts mw') = length (prompts sample_window)
      /\ nth_error (prompts mw') (Z.to_nat 1)
         = Some (stored_entry " Shorter " "Shorten this")
      /\ (forall j, j <> Z.to_nat 1 ->
            nth_error (prompts mw') j = nth_error (prompts sample_window) j)
      /\ load_prompts w' = (w', inr (PList (prompts mw')))
      /\ config_json w' = config_json sample_world)
  /\ save_and_close (Some 2%Z) " Shorter " "Shorten this" sample_window
       sample_world = (sample_world, inl IndexError).
Proof.
  split.
  - apply (proj1 (save_edited_prompt_replaces 1 " Shorter " "Shorten this"
                    sample_window sample_world)).
    simpl. lia.
  - apply (proj2 (save_edited_prompt_replaces 2 " Shorter " "Shorten this"
                    sample_window sample_world)).
    simpl. lia.
Defined.

Lemma lookup_setitem_same {A : Type} (key : string) (value : A)
      (d : list (string * A)) :
  lookup key (setitem key value d) = Some value.
Proof.
  induction d as [| [k v] d IH]; simpl.
  - now rewrite String.eqb_refl.
  - destruct (k =? key) eqn:E; simpl; now rewrite E.
Qed.

Lemma lookup_setitem_other {A : Type} (key other : string) (value : A)
      (d : list (string * A)) :
  other <> key -> lookup other (setitem key value d) = lookup other d.
Proof.
  intros H. induction d as [| [k v] d IH]; simpl.
  - replace (key =? other) with false; [reflexivity |].
    symmetry. apply String.eqb_neq. congruence.
  - destruct (k =? key) eqn:E; simpl.
    + apply String.eqb_eq in E. subst k.
      replace (key =? other) with false; [reflexivity |].
      symmetry. apply String.eqb_neq. congruence.
    + now rewrite IH.
Qed.

(** X14: the key saved in the settings window is the key the client uses.
    On a settings record that is a [dict], [_save_api_key] stores the
    trimmed text of the key entry under [api_key], keeps every other entry
    of the record and writes the record to the settings file; the next
    [call_openrouter_api] sends its one request with that key as bearer
    when the key is usable, and raises the missing-key error without
    sending anything when it is blank or the placeholder.  On a record
    that is no [dict] the assignment raises TypeError and nothing is
    written. *)
Theorem saved_key_is_used
        (fe : extended_formatter) (captured instruction typed : string)
        (mw : ManagementWindow) (w : world) :
  (forall items,
      config_data mw = PDict items ->
      exists mw' w' items',
        _save_api_key typed mw w = (w', inr mw')
        /\ config_data mw' = PDict items'
        /\ config_json w' = Holds (PDict items')
        /\ lookup "api_key" items' = Some (PStr (Str.strip typed))
        /\ (forall other, other <> "api_key" ->
              lookup other items' = lookup other items)
        /\ (usable_key (Str.strip typed) = true ->
            sent (fst (call_openrouter_api fe captured instruction w'))
            = (sent w
               ++ [build_request (Str.strip typed)
                     (_combine_prompt fe captured instruction)])%list)
        /\ (usable_key (Str.strip typed) = false ->
            call_openrouter_api fe captured instruction w'
            = (w', inl (RuntimeError ApiKeyMissing))))
  /\ ((forall items, config_data mw <> PDict items) ->
      _save_api_key typed mw w = (w, inl TypeError)).
Proof.
  unfold _save_api_key. split.
  - intros items ->.
    set (items' := setitem "api_key" (PStr (Str.strip typed)) items).
    set (w' := write_file CONFIG_PATH (Holds (PDict items')) w).
    exists {| config_data := PDict items'; prompts := prompts mw |}, w', items'.
    assert (Hlook : lookup "api_key" items' = Some (PStr (Str.strip typed)))
      by apply lookup_setitem_same.
    assert (Hkey : stored_key w' = Some (Str.strip typed)).
    { unfold stored_key, loaded_config, get. cbn [w' write_file config_json].
      now rewrite Hlook, strip_idempotent. }
    split; [reflexivity |]. split; [reflexivity |]. split; [reflexivity |].
    split; [exact Hlook |].
    split; [intros other Ho; now apply lookup_setitem_other |].
    split.
    + intros Hu. rewrite (call_with_key fe captured instruction w' _ Hkey Hu).
      reflexivity.
    + intros Hu. rewrite call_unfold.
      unfold loaded_config, get. cbn [w' write_file config_json].
      rewrite Hlook. cbn [strip_method]. now rewrite strip_idempotent, Hu.
  - intros H. destruct (config_data mw); try reflexivity. now elim (H items).
Qed.

Lemma saved_key_is_used_witness :
  exists mw' w' items',
    _save_api_key " sk-or-new " sample_window sample_world = (w', inr mw')
    /\ config_data mw' = PDict items'
    /\ config_json w' = Holds (PDict items')
    /\ lookup "api_key" items' = Some (PStr (Str.strip " sk-or-new "))
    /\ (forall other, other <> "api_key" ->
          lookup other items'
          = lookup other [("theme", PStr "dark"); ("api_key", PStr placeholder)])
    /\ (usable_key (Str.strip " sk-or-new ") = true ->
        sent (fst (call_openrouter_api raising "helo wrld" "Fix: {text}" w'))
        = (sent sample_world
           ++ [build_request (Str.strip " sk-or-new ")
                 (_combine_prompt raising "helo wrld" "Fix: {text}")])%list)
    /\ (usable_key (Str.strip " sk-or-new ") = false ->
        call_openrouter_api raising "helo wrld" "Fix: {text}" w'
        = (w', inl (RuntimeError ApiKeyMissing))).
Proof.
  apply (proj1 (saved_key_is_used raising "helo wrld" "Fix: {text}"
                  " sk-or-new " sample_window sample_world)).
  reflexivity.
Defined.

(** ** The picker: rows, arrows and letters *)

Lemma lookup_dict_set (n k v : string) (d : list (string * string)) :
  lookup n (dict_set k v d) = if k =? n then Some v else lookup n d.
Proof.
  induction d as [| [k' v'] d IH]; simpl; [reflexivity |].
  destruct (k' =? k) eqn:E; simpl.
  - apply String.eqb_eq in E. subst k'. now destruct (k =? n).
  - rewrite IH. destruct (k' =? n) eqn:En; [| reflexivity].
    apply String.eqb_eq in En. subst k'.
    rewrite String.eqb_sym in E. now rewrite E.
Qed.

Lemma in_keys_dict_set (n k v : string) (d : list (string * string)) :
  In n (keys (dict_set k v d)) <-> n = k \/ In n (keys d).
Proof.
  induction d as [| [k' v'] d IH]; simpl.
  - intuition.
  - destruct (k' =? k) eqn:E; simpl.
    + apply String.eqb_eq in E. subst k'. intuition.
    + rewrite IH. intuition.
Qed.

Lemma nodup_keys_dict_set (k v : string) (d : list (string * string)) :
  NoDup (keys d) -> NoDup (keys (dict_set k v d)).
Proof.
  induction d as [| [k' v'] d IH]; simpl; intros H.
  - constructor; [intros [] | constructor].
  - inversion H as [| ? ? Hnot Hd]; subst.
    destruct (k' =? k) eqn:E; simpl.
    + now constructor.
    + constructor; [| now apply IH].
      intros Hin. apply in_keys_dict_set in Hin as [-> | Hin].
      * now rewrite String.eqb_refl in E.
      * now apply Hnot.
Qed.

Lemma name_to_prompt_fold (ps : list prompt) (d : list (string * string)) :
  let d' := fold_left (fun d p => dict_set (name p) (prompt_text p) d) ps d in
  (NoDup (keys d) -> NoDup (keys d'))
  /\ (forall n, In n (keys d') <-> In n (map name ps) \/ In n (keys d))
  /\ (forall n, lookup n d'
                = match last_template n ps with
                  | Some t => Some t
                  | None => lookup n d
                  end).
Proof.
  revert d. induction ps as [| p ps IH]; intros d; simpl.
  - split; [trivial | split; [intuition | reflexivity]].
  - destruct (IH (dict_set (name p) (prompt_text p) d)) as (Hnd & Hin & Hlook).
    split; [| split].
    + intros H. apply Hnd. now apply nodup_keys_dict_set.
    + intros n. rewrite Hin, in_keys_dict_set. intuition.
    + intros n. rewrite Hlook, lookup_dict_set.
      destruct (last_template n ps); [reflexivity |].
      now destruct (name p =? n).
Qed.

(** X15: the buttons of the picker.  There is one button for each name
    among the stored templates and none else, no name has two buttons,
    the buttons stand in the order of their lower-cased names, and the
    template kept for a name is the one stored last under it. *)
Theorem picker_shows_each_name_once (captured : string) (ps : list prompt) :
  let pw := PromptWindow_init captured ps in
  NoDup (prompt_buttons pw)
  /\ (forall n, In n (prompt_buttons pw) <-> exists p, In p ps /\ name p = n)
  /\ Sorted lower_le (prompt_buttons pw)
  /\ (forall n, lookup n (name_to_prompt pw) = last_template n ps).
Proof.
  intros pw.
  destruct (name_to_prompt_fold ps []) as (Hnd & Hin & Hlook).
  assert (Hperm : Permutation (prompt_buttons pw) (keys (name_to_prompt_of ps)))
    by apply sorted_by_lower_perm.
  split; [| split; [| split]].
  - apply (Permutation_NoDup (Permutation_sym Hperm)). apply Hnd. constructor.
  - intros n. split.
    + intros H. apply (Permutation_in _ Hperm) in H.
      apply Hin in H as [H | []]. apply in_map_iff in H as (p & Hp & Hi).
      now exists p.
    + intros (p & Hp & <-).
      apply (Permutation_in _ (Permutation_sym Hperm)). apply Hin. left.
      now apply in_map.
  - apply sorted_by_lower_sorted.
  - intros n. change (name_to_prompt pw) with (name_to_prompt_of ps).
    unfold name_to_prompt_of. rewrite Hlook. now destruct (last_template n ps).
Qed.

Lemma navigate_step (step : Z) (pw : PromptWindow) :
  prompt_select_mode pw = true ->
  prompt_buttons pw <> [] ->
  _navigate step pw
  = with_selection true
      ((selected_prompt_index pw + step)
         mod Z.of_nat (length (prompt_buttons pw)))%Z pw.
Proof.
  intros Hmode Hne. unfold _navigate, _select_prompt.
  destruct (prompt_buttons pw) as [| b bs]; [now elim Hne |].
  now rewrite Hmode.
Qed.

(** X16: the arrow keys walk a ring.  In the picker with at least one
    button and a selected row among the buttons, Down then Up, and Up then
    Down, come back to the row they started from; Down on the last row
    goes to the first and Up on the first goes to the last; out of the
    picker the arrows do nothing. *)
Theorem arrows_walk_a_ring (pw : PromptWindow) :
  (prompt_select_mode pw = false ->
   _navigate_down pw = pw /\ _navigate_up pw = pw)
  /\ (prompt_select_mode pw = true ->
      let n := Z.of_nat (length (prompt_buttons pw)) in
      let i := selected_prompt_index pw in
      (0 <= i < n)%Z ->
      selected_prompt_index (_navigate_up (_navigate_down pw)) = i
      /\ selected_prompt_index (_navigate_down (_navigate_up pw)) = i
      /\ (i = (n - 1)%Z -> selected_prompt_index (_navigate_down pw) = 0%Z)
      /\ (i = 0%Z -> selected_prompt_index (_navigate_up pw) = (n - 1)%Z)).
Proof.
  split.
  - intros Hmode. unfold _navigate_down, _navigate_up, _navigate.
    rewrite Hmode. now destruct (prompt_buttons pw).
  - intros Hmode n i Hi.
    assert (Hne : prompt_buttons pw <> []).
    { intros E. unfold n in Hi. rewrite E in Hi. simpl in Hi. lia. }
    assert (Hstep : forall step,
               _navigate step pw
               = with_selection true ((i + step) mod n)%Z pw)
      by (intros step; now apply navigate_step).
    assert (Hagain : forall step step',
               selected_prompt_index (_navigate step' (_navigate step pw))
               = (((i + step) mod n + step') mod n)%Z).
    { intros step step'. rewrite Hstep.
      rewrite navigate_step; [reflexivity | reflexivity | exact Hne]. }
    unfold _navigate_up, _navigate_down.
    rewrite !Hagain, !Hstep. cbn [with_selection selected_prompt_index].
    rewrite !Z.add_mod_idemp_l by lia.
    replace (i + 1 + -1)%Z with i by lia.
    replace (i + -1 + 1)%Z with i by lia.
    rewrite !Z.mod_small by lia.
    split; [reflexivity | split; [reflexivity | split]].
    + intros ->. replace (n - 1 + 1)%Z with (1 * n)%Z by lia.
      apply Z.mod_mul. lia.
    + intros ->. replace (0 + -1)%Z with ((n - 1) + (-1) * n)%Z by lia.
      rewrite Z.mod_add by lia. apply Z.mod_small. lia.
Qed.

Lemma arrows_walk_a_ring_witness :
  let pw := _enter_prompt_select (PromptWindow_init "helo wrld" _default_prompts) in
  selected_prompt_index (_navigate_up (_navigate_down pw)) = 0%Z
  /\ selected_prompt_index (_navigate_down (_navigate_up pw)) = 0%Z
  /\ (0%Z = (2 - 1)%Z -> selected_prompt_index (_navigate_down pw) = 0%Z)
  /\ (0%Z = 0%Z -> selected_prompt_index (_navigate_up pw) = (2 - 1)%Z).
Proof.
  intros pw.
  apply (proj2 (arrows_walk_a_ring pw) eq_refl). simpl. lia.
Defined.

Lemma find_index_some {A : Type} (f : A -> bool) (l : list A) (idx : nat) :
  find_index f l = Some idx ->
  exists x,
    nth_error l idx = Some x /\ f x = true
    /\ forall j y, j < idx -> nth_error l j = Some y -> f y = false.
Proof.
  revert idx. induction l as [| x l IH]; intros idx H; [discriminate H |].
  simpl in H. destruct (f x) eqn:Ex.
  - injection H as <-. exists x. repeat split; trivial. intros j y Hj. lia.
  - destruct (find_index f l) as [i |]; [| discriminate H].
    injection H as <-. destruct (IH i eq_refl) as (z & Hz & Hfz & Hfirst).
    exists z. repeat split; trivial.
    intros j y Hj Hy. destruct j as [| j].
    + injection Hy as <-. exact Ex.
    + apply (Hfirst j y); [lia | exact Hy].
Qed.

Lemma find_index_none {A : Type} (f : A -> bool) (l : list A) :
  find_index f l = None <-> forall x, In x l -> f x = false.
Proof.
  induction l as [| x l IH]; simpl.
  - split; [intros _ y [] | reflexivity].
  - destruct (f x) eqn:Ex.
    + split; [discriminate |]. intros H. rewrite (H x) in Ex; [discriminate |].
      now left.
    + destruct (find_index f l) as [i |].
      * split; [discriminate |]. intros H.
        assert (Habs : Some i = None)
          by (apply IH; intros y Hy; apply H; now right).
        discriminate Habs.
      * split; [| reflexivity]. intros _ y [<- | Hy]; [exact Ex |].
        now apply (proj1 IH eq_refl).
Qed.

(** X17: a letter key jumps to the first match.  In the picker, the key
    of a letter selects the first button, from the top, whose lower-cased
    name starts with the lower-cased letter, and that button becomes the
    highlighted one; when no name starts with the letter, when the key is
    not one letter, or out of the picker, nothing changes. *)
Theorem letter_jumps_to_first_match (c : ascii) (pw : PromptWindow) :
  let k := Str.lower_char c in
  let pw' := _jump_to_alpha (Some (String c EmptyString)) pw in
  (prompt_select_mode pw = true ->
   isalpha k = true ->
   (exists n, In n (sorted_prompt_names pw) /\ starts_with_key k n = true) ->
   exists idx n,
     selected_prompt_index pw' = Z.of_nat idx
     /\ highlighted_name pw' = Some n
     /\ nth_error (sorted_prompt_names pw) idx = Some n
     /\ starts_with_key k n = true
     /\ forall j m, j < idx -> nth_error (sorted_prompt_names pw) j = Some m ->
                    starts_with_key k m = false)
  /\ ((forall n, In n (sorted_prompt_names pw) -> starts_with_key k n = false) ->
      pw' = pw)
  /\ (isalpha k = false -> pw' = pw)
  /\ (prompt_select_mode pw = false -> pw' = pw)
  /\ (forall sym, String.length sym <> 1 -> _jump_to_alpha (Some sym) pw = pw)
  /\ _jump_to_alpha None pw = pw.
Proof.
  intros k pw'. unfold pw', _jump_to_alpha. cbn [Str.lower]. fold k.
  fold (starts_with_key k).
  split; [| split; [| split; [| split; [| split]]]].
  - intros Hmode Ha (n & Hn & Hs). rewrite Hmode, Ha. cbn [negb].
    destruct (find_index (starts_with_key k) (sorted_prompt_names pw))
      as [idx |] eqn:E.
    + destruct (find_index_some _ _ _ E) as (m & Hm & Hfm & Hfirst).
      exists idx, m. unfold highlighted_name, _select_prompt, with_selection,
        prompt_buttons. cbn [selected_prompt_index sorted_prompt_names].
      replace (0 <=? Z.of_nat idx)%Z with true
        by (symmetry; apply Z.leb_le; lia).
      rewrite Nat2Z.id. repeat split; trivial.
    + rewrite (proj1 (find_index_none _ _) E n Hn) in Hs. discriminate Hs.
  - intros Hnone. destruct (negb (prompt_select_mode pw)); [reflexivity |].
    destruct (isalpha k); [| reflexivity].
    now rewrite (proj2 (find_index_none _ _) Hnone).
  - intros Ha. rewrite Ha. now destruct (negb (prompt_select_mode pw)).
  - intros Hmode. now rewrite Hmode.
  - intros sym Hlen. destruct (negb (prompt_select_mode pw)); [reflexivity |].
    destruct sym as [| a [| b sym]]; simpl in *; try reflexivity. lia.
  - reflexivity.
Qed.

Lemma letter_jumps_to_first_match_witness :
  let pw := _enter_prompt_select (PromptWindow_init "helo wrld" _default_prompts) in
  exists idx n,
    selected_prompt_index (_jump_to_alpha (Some "P") pw) = Z.of_nat idx
    /\ highlighted_name (_jump_to_alpha (Some "P") pw) = Some n
    /\ nth_error (sorted_prompt_names pw) idx = Some n
    /\ starts_with_key (Str.lower_char "P") n = true
    /\ forall j m, j < idx -> nth_error (sorted_prompt_names pw) j = Some m ->
                   starts_with_key (Str.lower_char "P") m = false.
Proof.
  intros pw.
  apply (proj1 (letter_jumps_to_first_match "P" pw)); try reflexivity.
  exists "Professional Tone". split; [right; left |]; reflexivity.
Defined.

(** ** The worker *)

Section WorkerFacts.

Variable fe : extended_formatter.
Variable delivered : key_event -> bool.
Variable copy_other : pyval -> option string.
Variable message : failure -> string.

Lemma worker_on_text (instruction : string) (d : desk) (s : string) :
  snd (call_openrouter_api fe (captured_text (window d)) instruction
         (the_world d)) = inr (PStr s) ->
  worker fe delivered copy_other message instruction d
  = ({| the_world :=
          fst (call_openrouter_api fe (captured_text (window d)) instruction
                 (the_world d));
        clipboard := s;
        key_log := snd (_auto_paste delivered (window d, key_log d));
        window := fst (_auto_paste delivered (window d, key_log d)) |},
     FinishSuccess).
Proof.
  intros H. unfold worker.
  destruct (call_openrouter_api fe (captured_text (window d)) instruction
              (the_world d)) as [w r].
  cbn [snd fst] in *. subst r. cbn [copied_text].
  now destruct (_auto_paste delivered (window d, key_log d)).
Qed.


End WorkerFacts.

(** X18: a request that succeeds ends in one paste.  With a usable
    credential, a reply outside 400-599 whose first candidate has a
    non-empty string as content, and a window whose paste flag is unset,
    the worker sends the one request, puts exactly that string on the
    clipboard, runs the keystrokes of one paste (Ctrl down, v down, v up,
    Ctrl up when the controller delivers every event), sets the flag and
    schedules the closing of the window. *)
Theorem worker_pastes_the_answer
        (fe : extended_formatter) (delivered : key_event -> bool)
        (copy_other : pyval -> option string) (message : failure -> string)
        (instruction : string) (d : desk)
        (k : string) (status : Z) (data : pyval) (s : string) :
  stored_key (the_world d) = Some k ->
  usable_key k = true ->
  remote (the_world d)
    (build_request k
       (_combine_prompt fe (captured_text (window d)) instruction))
  = Reply status (Some data) ->
  ~ (400 <= status < 600)%Z ->
  first_candidate_content data = Some (PStr s) ->
  s <> EmptyString ->
  _paste_executed (window d) = false ->
  let d' := fst (worker fe delivered copy_other message instruction d) in
  snd (worker fe delivered copy_other message instruction d) = FinishSuccess
  /\ clipboard d' = s
  /\ sent (the_world d')
     = (sent (the_world d)
        ++ [build_request k
              (_combine_prompt fe (captured_text (window d)) instruction)])%list
  /\ key_log d' = paste_keystrokes delivered (key_log d)
  /\ ((forall e, delivered e = true) ->
      key_log d' = (key_log d ++ paste_chord)%list)
  /\ _paste_executed (window d') = true.
Proof.
  intros Hk Hu Hreply Hstatus Hcontent Hs Hflag d'.
  assert (Hcall : call_openrouter_api fe (captured_text (window d)) instruction
                    (the_world d)
                  = (with_request
                       (build_request k
                          (_combine_prompt fe (captured_text (window d))
                             instruction))
                       (after_load_config (the_world d)),
                     inr (PStr s))).
  { rewrite (call_with_key fe _ _ _ k Hk Hu), Hreply. f_equal.
    unfold reply_outcome.
    destruct ((400 <=? status) && (status <? 600))%Z eqn:E.
    - apply andb_true_iff in E as [Hlo Hhi].
      apply Z.leb_le in Hlo. apply Z.ltb_lt in Hhi. elim Hstatus. now split.
    - rewrite (first_choice_content_of_candidate _ _ Hcontent). simpl.
      apply String.eqb_neq in Hs. now rewrite Hs. }
  assert (Hw : worker fe delivered copy_other message instruction d
               = (_, FinishSuccess))
    by (apply worker_on_text; now rewrite Hcall).
  unfold d'. rewrite Hw, Hcall. cbn [fst snd the_world clipboard key_log window].
  destruct (after_load_config_holds (the_world d)) as (_ & _ & Hsent & _).
  unfold _auto_paste. rewrite Hflag. cbn [fst snd _paste_executed].
  split; [reflexivity |]. split; [reflexivity |].
  split; [unfold with_request; cbn [sent]; now rewrite Hsent |].
  split; [reflexivity |].
  split; [intros Hall; now apply paste_keystrokes_delivered | reflexivity].
Qed.

Lemma worker_pastes_the_answer_witness :
  let d := fresh_desk (answering (Reply 200 (Some hello_body)))
             (PromptWindow_init "helo wrld" _default_prompts) in
  let d' := fst (worker raising (fun _ => true) never_copied no_message
                   "Fix: {text}" d) in
  snd (worker raising (fun _ => true) never_copied no_message "Fix: {text}" d)
  = FinishSuccess
  /\ clipboard d' = "Hello"
  /\ sent (the_world d')
     = (sent (the_world d)
        ++ [build_request "sk-or-demo"
              (_combine_prompt raising (captured_text (window d))
                 "Fix: {text}")])%list
  /\ key_log d' = paste_keystrokes (fun _ => true) (key_log d)
  /\ ((forall e : key_event, (fun _ : key_event => true) e = true) ->
      key_log d' = (key_log d ++ paste_chord)%list)
  /\ _paste_executed (window d') = true.
Proof.
  intros d.
  apply (worker_pastes_the_answer raising (fun _ => true) never_copied
           no_message "Fix: {text}" d "sk-or-demo" 200 hello_body "Hello");
    try reflexivity.
  - simpl. lia.
  - discriminate.
Defined.



(** ** The preview of a card *)

Lemma substring_zero_length (n : nat) (s : string) :
  String.length (substring 0 n s) = Nat.min n (String.length s).
Proof.
  revert s. induction n as [| n IH]; intros s.
  - now destruct s.
  - destruct s as [| c s]; [reflexivity |]. simpl. now rewrite IH.
Qed.

Lemma substring_zero_prefix (n : nat) (s : string) :
  exists rest, s = substring 0 n s ++ rest.
Proof.
  revert s. induction n as [| n IH]; intros s.
  - exists s. now destruct s.
  - destruct s as [| c s]; [now exists EmptyString |].
    destruct (IH s) as (rest & E). exists rest. simpl. now rewrite <- E.
Qed.

(** X20: the preview of a template on its card is never longer than 63
    characters: a template of at most 60 characters is shown whole, a
    longer one as its first 60 characters followed by three dots. *)
Theorem preview_is_short (prompt_str : string) :
  (String.length (preview prompt_str) <= 63)%nat
  /\ ((String.length prompt_str <= 60)%nat -> preview prompt_str = prompt_str)
  /\ ((60 < String.length prompt_str)%nat ->
      exists head rest,
        prompt_str = head ++ rest
        /\ String.length head = 60
        /\ preview prompt_str = head ++ "...").
Proof.
  unfold preview.
  destruct (60 <? String.length prompt_str)%nat eqn:E.
  - apply Nat.ltb_lt in E. split; [| split].
    + rewrite length_append, substring_zero_length.
      change (String.length "...") with 3. lia.
    + intros H. lia.
    + intros _. destruct (substring_zero_prefix 60 prompt_str) as (rest & Er).
      exists (substring 0 60 prompt_str), rest.
      split; [exact Er |]. split; [| reflexivity].
      rewrite substring_zero_length. lia.
  - apply Nat.ltb_ge in E. split; [lia | split; [reflexivity | lia]].
Qed.

(** ** Start-up *)

Lemma load_prompts_total (w : world) :
  exists w' items,
    load_prompts w = (w', inr (PList items))
    /\ readable (prompts_json w')
    /\ config_json w' = config_json w
    /\ sent w' = sent w
    /\ (forall stored, prompts_json w = Holds (PList stored) ->
          items = stored /\ w' = w)
    /\ (prompts_json w = Missing \/ prompts_json w = Unreadable ->
        PList items = prompts_value _default_prompts
        /\ prompts_json w' = Holds (PList items)).
Proof.
  destruct (prompts_json w) as [| | v] eqn:E.
  - exists (write_file PROMPTS_PATH (Holds (prompts_value _default_prompts)) w),
      (map prompt_value _default_prompts).
    split; [now apply load_prompts_missing |].
    split; [now eexists |]. split; [reflexivity |]. split; [reflexivity |].
    split; [discriminate | now split].
  - exists (write_file PROMPTS_PATH (Holds (prompts_value _default_prompts)) w),
      (map prompt_value _default_prompts).
    split; [now apply load_prompts_unreadable |].
    split; [now eexists |]. split; [reflexivity |]. split; [reflexivity |].
    split; [discriminate | now split].
  - destruct (is_list v) eqn:Hv.
    + destruct v; try discriminate Hv.
      exists w, items. split; [now apply load_prompts_list |].
      split; [rewrite E; now eexists |].
      split; [reflexivity |]. split; [reflexivity |].
      split; [intros stored [= <-]; now split |].
      intros [H | H]; discriminate H.
    + exists w, (map prompt_value _default_prompts).
      split; [now apply (load_prompts_not_list w v) |].
      split; [rewrite E; now eexists |].
      split; [reflexivity |]. split; [reflexivity |].
      split; [intros stored [= ->]; discriminate Hv |].
      intros [H | H]; discriminate H.
Qed.

(** X21: the two loads of [App.__init__] send nothing; when they return,
    the settings file and the template file both exist and hold a JSON
    document; and a file that could be read before is left as it was, a
    template file that holds no list included. *)
Theorem startup_leaves_readable_files (w w' : world) :
  App_preload w = (w', inr tt) ->
  readable (config_json w')
  /\ readable (prompts_json w')
  /\ (readable (config_json w) -> config_json w' = config_json w)
  /\ (readable (prompts_json w) -> prompts_json w' = prompts_json w)
  /\ sent w' = sent w.
Proof.
  destruct (after_load_config_holds w) as (Hc & Hp & Hs & _).
  destruct (load_prompts_total (after_load_config w))
    as (w2 & items & Hload & Hread & Hcfg & Hsent & Hsame & Hrepair).
  unfold App_preload.
  unfold bind at 1. rewrite load_config_total.
  unfold bind at 1. rewrite Hload.
  intros [= <-].
  split; [rewrite Hcfg, Hc; now eexists |].
  split; [exact Hread |].
  split.
  - intros (v & Hv). rewrite Hcfg. unfold after_load_config. now rewrite Hv.
  - split; [| now rewrite Hsent].
    intros (v & Hv).
    assert (E : prompts_json (after_load_config w) = Holds v)
      by (rewrite Hp; exact Hv).
    assert (Hw : w2 = after_load_config w).
    { destruct (is_list v) eqn:Hl.
      - destruct v; try discriminate Hl. now destruct (Hsame _ E).
      - rewrite (load_prompts_not_list _ v E Hl) in Hload.
        now injection Hload as <- _. }
    rewrite Hw. exact Hp.
Qed.

Lemma startup_leaves_readable_files_witness :
  let w := {| config_json := Missing; prompts_json := Holds (PDict []);
              sent := []; remote := offline |} in
  let w' := fst (App_preload w) in
  readable (config_json w')
  /\ readable (prompts_json w')
  /\ prompts_json w' = Holds (PDict [])
  /\ sent w' = sent w.
Proof.
  intros w w'.
  destruct (startup_leaves_readable_files w w' eq_refl)
    as (Hc & Hp & _ & Hsame & Hs).
  split; [exact Hc |]. split; [exact Hp |].
  split; [| exact Hs].
  apply Hsame. now exists (PDict []).
Defined.

(** ** The entry and the Enter key *)



